(** * clerkk-recorder: microphone analysis hook, waveform renderer, recorder shell

    A shallow embedding of the three TypeScript units of the repository

    - [useMicrophone]  (the hook at the end of [Waveform.tsx]),
    - [Waveform]       (two listings of the canvas renderer), and
    - [RecorderApp]    (timer and transport controls),

    together with the properties the specification states about them.

    Conventions.  JavaScript numbers are modelled by exact rationals [Q]
    (integers where the source only ever holds integers: the clock, handles,
    the seconds counter), so [a / b] is exact division and comparisons are
    exact.  React state and refs of a component are the fields of one record;
    a [setX(v)] call or a [ref.current = v] assignment is a field update.
    Anything a callback obtains from the platform (the clock [Date.now()], the
    analyser snapshot, the outcome of [getUserMedia]) is an argument of the
    function that embeds the callback. *)

From Stdlib Require Import QArith Qminmax ZArith List Bool Lia Lqa String.
From Stdlib.Strings Require Import Byte.
From Stdlib Require Ascii Decimal DecimalString DecimalNat.
Import ListNotations.

Local Open Scope Q_scope.

(** ** Numbers *)

(** The value of one element of a [Uint8Array]. *)
Definition byteVal (b : byte) : Q := inject_Z (Z.of_N (Byte.to_N b)).

(** [x > y] on JavaScript numbers. *)
Definition Qgtb (x y : Q) : bool := negb (Qle_bool x y).

(** [xs.reduce((a, b) => a + b, init)]. *)
Definition reduceSum (init : Q) (xs : list Q) : Q :=
  fold_left Qplus xs init.

(** [Array.prototype.length] as a number. *)
Definition lengthQ {A : Type} (xs : list A) : Q :=
  inject_Z (Z.of_nat (List.length xs)).

(** The last [n] elements of a list, in order. *)
Definition lastn {A : Type} (n : nat) (l : list A) : list A :=
  skipn (List.length l - n) l.

(** The snapshot buffer [new Uint8Array(analyser.frequencyBinCount)].  The
    bin count is half the FFT size (512 for the analyser the hook builds), so
    the buffer always has a first element; the type records that. *)
Record Snapshot : Type := mkSnapshot {
  bin0 : byte;
  bins : list byte
}.

Definition binList (d : Snapshot) : list byte := bin0 d :: bins d.

(** ** useMicrophone *)

Module Mic.

Definition SILENCE_THRESHOLD : Q := 0.005.
Definition SILENCE_DELAY : Z := 800.
Definition VOLUME_HISTORY_SIZE : nat := 10.
Definition MIN_SPEAKING_DURATION : Z := 200.

(** What the browser holds on behalf of the hook: media streams whose tracks
    are still running, audio contexts not yet closed, animation-frame requests
    not yet run or cancelled, and the supply of fresh handles. *)
Record Platform : Type := mkPlatform {
  liveStreams : list nat;
  openContexts : list nat;
  pendingFrames : list nat;
  nextHandle : nat
}.

(** The hook: five pieces of React state, seven refs, and the platform.
    [silenceTimeoutRef] holds the pending [setTimeout], represented by the
    clock reading of the tick that armed it; the ref is written exactly where
    a timeout is armed, cleared or has run, so it is [Some] exactly while a
    silence-confirmation timeout is pending. *)
Record Hook : Type := mkHook {
  isListening : bool;
  isSpeaking : bool;
  hasPermission : option bool;
  audioLevel : Q;
  error : option string;
  mediaStreamRef : option nat;
  audioContextRef : option nat;
  analyserRef : option nat;
  animationFrameRef : option nat;
  silenceTimeoutRef : option Z;
  volumeHistoryRef : list Q;
  lastSpeakingTimeRef : Z;
  platform : Platform
}.

Definition setIsListening (v : bool) (s : Hook) : Hook :=
  mkHook v (isSpeaking s) (hasPermission s) (audioLevel s) (error s)
    (mediaStreamRef s) (audioContextRef s) (analyserRef s)
    (animationFrameRef s) (silenceTimeoutRef s) (volumeHistoryRef s)
    (lastSpeakingTimeRef s) (platform s).

Definition setIsSpeaking (v : bool) (s : Hook) : Hook :=
  mkHook (isListening s) v (hasPermission s) (audioLevel s) (error s)
    (mediaStreamRef s) (audioContextRef s) (analyserRef s)
    (animationFrameRef s) (silenceTimeoutRef s) (volumeHistoryRef s)
    (lastSpeakingTimeRef s) (platform s).

Definition setHasPermission (v : option bool) (s : Hook) : Hook :=
  mkHook (isListening s) (isSpeaking s) v (audioLevel s) (error s)
    (mediaStreamRef s) (audioContextRef s) (analyserRef s)
    (animationFrameRef s) (silenceTimeoutRef s) (volumeHistoryRef s)
    (lastSpeakingTimeRef s) (platform s).

Definition setAudioLevel (v : Q) (s : Hook) : Hook :=
  mkHook (isListening s) (isSpeaking s) (hasPermission s) v (error s)
    (mediaStreamRef s) (audioContextRef s) (analyserRef s)
    (animationFrameRef s) (silenceTimeoutRef s) (volumeHistoryRef s)
    (lastSpeakingTimeRef s) (platform s).

Definition setError (v : option string) (s : Hook) : Hook :=
  mkHook (isListening s) (isSpeaking s) (hasPermission s) (audioLevel s) v
    (mediaStreamRef s) (audioContextRef s) (analyserRef s)
    (animationFrameRef s) (silenceTimeoutRef s) (volumeHistoryRef s)
    (lastSpeakingTimeRef s) (platform s).

Definition setMediaStreamRef (v : option nat) (s : Hook) : Hook :=
  mkHook (isListening s) (isSpeaking s) (hasPermission s) (audioLevel s)
    (error s) v (audioContextRef s) (analyserRef s)
    (animationFrameRef s) (silenceTimeoutRef s) (volumeHistoryRef s)
    (lastSpeakingTimeRef s) (platform s).

Definition setAudioContextRef (v : option nat) (s : Hook) : Hook :=
  mkHook (isListening s) (isSpeaking s) (hasPermission s) (audioLevel s)
    (error s) (mediaStreamRef s) v (analyserRef s)
    (animationFrameRef s) (silenceTimeoutRef s) (volumeHistoryRef s)
    (lastSpeakingTimeRef s) (platform s).

Definition setAnalyserRef (v : option nat) (s : Hook) : Hook :=
  mkHook (isListening s) (isSpeaking s) (hasPermission s) (audioLevel s)
    (error s) (mediaStreamRef s) (audioContextRef s) v
    (animationFrameRef s) (silenceTimeoutRef s) (volumeHistoryRef s)
    (lastSpeakingTimeRef s) (platform s).

Definition setAnimationFrameRef (v : option nat) (s : Hook) : Hook :=
  mkHook (isListening s) (isSpeaking s) (hasPermission s) (audioLevel s)
    (error s) (mediaStreamRef s) (audioContextRef s) (analyserRef s)
    v (silenceTimeoutRef s) (volumeHistoryRef s)
    (lastSpeakingTimeRef s) (platform s).

Definition setSilenceTimeoutRef (v : option Z) (s : Hook) : Hook :=
  mkHook (isListening s) (isSpeaking s) (hasPermission s) (audioLevel s)
    (error s) (mediaStreamRef s) (audioContextRef s) (analyserRef s)
    (animationFrameRef s) v (volumeHistoryRef s)
    (lastSpeakingTimeRef s) (platform s).

Definition setVolumeHistoryRef (v : list Q) (s : Hook) : Hook :=
  mkHook (isListening s) (isSpeaking s) (hasPermission s) (audioLevel s)
    (error s) (mediaStreamRef s) (audioContextRef s) (analyserRef s)
    (animationFrameRef s) (silenceTimeoutRef s) v
    (lastSpeakingTimeRef s) (platform s).

Definition setLastSpeakingTimeRef (v : Z) (s : Hook) : Hook :=
  mkHook (isListening s) (isSpeaking s) (hasPermission s) (audioLevel s)
    (error s) (mediaStreamRef s) (audioContextRef s) (analyserRef s)
    (animationFrameRef s) (silenceTimeoutRef s) (volumeHistoryRef s)
    v (platform s).

Definition setPlatform (v : Platform) (s : Hook) : Hook :=
  mkHook (isListening s) (isSpeaking s) (hasPermission s) (audioLevel s)
    (error s) (mediaStreamRef s) (audioContextRef s) (analyserRef s)
    (animationFrameRef s) (silenceTimeoutRef s) (volumeHistoryRef s)
    (lastSpeakingTimeRef s) v.

(** The hook as [useState]/[useRef] initialise it. *)
Definition initial : Hook :=
  mkHook false false None 0 None None None None None None [] 0%Z
    (mkPlatform [] [] [] 1).

(** *** Platform calls *)

Definition removeHandle (h : nat) (hs : list nat) : list nat :=
  filter (fun x => negb (Nat.eqb x h)) hs.

(** [requestAnimationFrame(cb)]: a fresh non-zero request id, now pending. *)
Definition requestAnimationFrame (p : Platform) : nat * Platform :=
  (nextHandle p,
   mkPlatform (liveStreams p) (openContexts p)
     (nextHandle p :: pendingFrames p) (S (nextHandle p))).

(** [cancelAnimationFrame(id)]; also what happens to a request when the
    browser runs it. *)
Definition cancelAnimationFrame (id : nat) (p : Platform) : Platform :=
  mkPlatform (liveStreams p) (openContexts p)
    (removeHandle id (pendingFrames p)) (nextHandle p).

(** A granted [getUserMedia]: a fresh stream with running tracks. *)
Definition openStream (p : Platform) : nat * Platform :=
  (nextHandle p,
   mkPlatform (nextHandle p :: liveStreams p) (openContexts p)
     (pendingFrames p) (S (nextHandle p))).

(** [stream.getTracks().forEach((track) => track.stop())]. *)
Definition stopTracks (stream : nat) (p : Platform) : Platform :=
  mkPlatform (removeHandle stream (liveStreams p)) (openContexts p)
    (pendingFrames p) (nextHandle p).

(** [new AudioContext()]. *)
Definition newAudioContext (p : Platform) : nat * Platform :=
  (nextHandle p,
   mkPlatform (liveStreams p) (nextHandle p :: openContexts p)
     (pendingFrames p) (S (nextHandle p))).

(** [audioContext.close()]. *)
Definition closeContext (ctx : nat) (p : Platform) : Platform :=
  mkPlatform (liveStreams p) (removeHandle ctx (openContexts p))
    (pendingFrames p) (nextHandle p).

(** [audioContext.createAnalyser()]: a fresh handle, nothing else. *)
Definition createAnalyser (p : Platform) : nat * Platform :=
  (nextHandle p,
   mkPlatform (liveStreams p) (openContexts p) (pendingFrames p)
     (S (nextHandle p))).

(** *** analyzeAudio *)

(** [dataArray.reduce((a, b) => a + b) / dataArray.length]: without an initial
    value the fold starts from the first element. *)
Definition average (dataArray : Snapshot) : Q :=
  reduceSum (byteVal (bin0 dataArray)) (map byteVal (bins dataArray))
  / lengthQ (binList dataArray).

Definition normalizedLevel (dataArray : Snapshot) : Q :=
  average dataArray / 255.

(** [history.push(x); if (history.length > VOLUME_HISTORY_SIZE) history.shift()]. *)
Definition pushVolume (x : Q) (history : list Q) : list Q :=
  let pushed := history ++ [x] in
  if Nat.ltb VOLUME_HISTORY_SIZE (List.length pushed) then tl pushed
  else pushed.

(** [history.reduce((a, b) => a + b, 0) / history.length]. *)
Definition smoothedLevel (history : list Q) : Q :=
  reduceSum 0 history / lengthQ history.

Definition aboveThreshold (level : Q) : bool := Qgtb level SILENCE_THRESHOLD.

(** [if (silenceTimeoutRef.current) { clearTimeout(...); ... = null }]. *)
Definition clearSilenceTimeout (s : Hook) : Hook :=
  match silenceTimeoutRef s with
  | Some _ => setSilenceTimeoutRef None s
  | None => s
  end.

Definition isSome {A : Type} (o : option A) : bool :=
  match o with Some _ => true | None => false end.

(** [animationFrameRef.current = requestAnimationFrame(analyzeAudio)]. *)
Definition scheduleNextFrame (s : Hook) : Hook :=
  let (id, p) := requestAnimationFrame (platform s) in
  setAnimationFrameRef (Some id) (setPlatform p s).

(** One run of the [analyzeAudio] callback.

    [speakingSeen] is the variable [isSpeaking] as the callback reads it: the
    callback is built by [useCallback(..., [isSpeaking])], so it reads the
    value of the render that built it, which need not be the current
    [isSpeaking] field.  [now] is [Date.now()], [dataArray] the buffer after
    [getByteFrequencyData]. *)
Definition analyzeAudio (speakingSeen : bool) (now : Z) (dataArray : Snapshot)
    (s : Hook) : Hook :=
  match analyserRef s with
  | None => s
  | Some _ =>
    let level := normalizedLevel dataArray in
    let s := setAudioLevel level s in
    let s := setVolumeHistoryRef (pushVolume level (volumeHistoryRef s)) s in
    let smoothed := smoothedLevel (volumeHistoryRef s) in
    let currentTime := now in
    let s :=
      if aboveThreshold smoothed then
        let s := clearSilenceTimeout s in
        if negb speakingSeen
        then setIsSpeaking true (setLastSpeakingTimeRef currentTime s)
        else s
      else
        if speakingSeen && negb (isSome (silenceTimeoutRef s))
        then setSilenceTimeoutRef (Some currentTime) s
        else s in
    scheduleNextFrame s
  end.

(** The callback handed to [setTimeout(..., SILENCE_DELAY)], run at clock
    reading [now]. *)
Definition silenceTimeoutFired (now : Z) (s : Hook) : Hook :=
  let speakingDuration := (now - lastSpeakingTimeRef s)%Z in
  let s :=
    if (MIN_SPEAKING_DURATION <=? speakingDuration)%Z
    then setIsSpeaking false s
    else s in
  setSilenceTimeoutRef None s.

(** *** stopListening, startListening *)

Definition stopListening (s : Hook) : Hook :=
  let s :=
    match animationFrameRef s with
    | Some id => setPlatform (cancelAnimationFrame id (platform s)) s
    | None => s
    end in
  let s := clearSilenceTimeout s in
  let s :=
    match mediaStreamRef s with
    | Some stream =>
      setMediaStreamRef None (setPlatform (stopTracks stream (platform s)) s)
    | None => s
    end in
  let s :=
    match audioContextRef s with
    | Some ctx =>
      setAudioContextRef None (setPlatform (closeContext ctx (platform s)) s)
    | None => s
    end in
  let s := setAnalyserRef None s in
  let s := setVolumeHistoryRef [] s in
  let s := setIsListening false s in
  let s := setIsSpeaking false s in
  setAudioLevel 0 s.

(** What [await navigator.mediaDevices.getUserMedia(...)] does: it rejects, or
    it resolves with a stream; in the second case the call goes on to run
    [analyzeAudio()] once, at clock reading [now] on buffer [dataArray]. *)
Inductive MediaOutcome : Type :=
  | Denied
  | Granted (now : Z) (dataArray : Snapshot).

Definition deniedMessage : string :=
  "Microphone access denied. Please allow microphone permissions.".

(** The granted path of [startListening] up to the two ref assignments: the
    stream is stored, permission and listening are reported, the audio context
    and its analyser are built and stored. *)
Definition openSession (s : Hook) : Hook :=
  let (stream, p) := openStream (platform s) in
  let s := setMediaStreamRef (Some stream) (setPlatform p s) in
  let s := setHasPermission (Some true) s in
  let s := setIsListening true s in
  let (audioContext, p) := newAudioContext (platform s) in
  let (analyser, p) := createAnalyser p in
  let s := setPlatform p s in
  let s := setAudioContextRef (Some audioContext) s in
  setAnalyserRef (Some analyser) s.

(** [speakingSeen] is the [isSpeaking] read by the [analyzeAudio] this
    [startListening] closes over. *)
Definition startListening (speakingSeen : bool) (r : MediaOutcome) (s : Hook)
    : Hook :=
  let s := setError None s in
  match r with
  | Denied =>
    let s := setError (Some deniedMessage) s in
    setHasPermission (Some false) s
  | Granted now dataArray =>
    analyzeAudio speakingSeen now dataArray (openSession s)
  end.

(** *** Runs of the analysis loop

    The browser drives the hook through two kinds of callback: an animation
    frame running [analyzeAudio], and the silence-confirmation timeout.  A
    frame event names the request being run, the [isSpeaking] its callback
    reads, the clock and the analyser buffer; nothing is assumed about which
    callback the browser picks, so every interleaving of loops is covered. *)
Inductive Event : Type :=
  | Frame (id : nat) (speakingSeen : bool) (now : Z) (dataArray : Snapshot)
  | SilenceTimer (now : Z).

Definition clockOf (e : Event) : Z :=
  match e with
  | Frame _ _ now _ => now
  | SilenceTimer now => now
  end.

Definition step (e : Event) (s : Hook) : Hook :=
  match e with
  | Frame id speakingSeen now dataArray =>
    analyzeAudio speakingSeen now dataArray
      (setPlatform (cancelAnimationFrame id (platform s)) s)
  | SilenceTimer now => silenceTimeoutFired now s
  end.

Definition run (s : Hook) (tr : list Event) : Hook :=
  fold_left (fun s e => step e s) tr s.

(** [setTimeout] never runs its callback before the delay has passed, and
    only while the timeout is still pending. *)
Definition enabled (e : Event) (s : Hook) : bool :=
  match e with
  | Frame _ _ _ _ => true
  | SilenceTimer now =>
    match silenceTimeoutRef s with
    | Some armed => (armed + SILENCE_DELAY <=? now)%Z
    | None => false
    end
  end.

(** A trace the browser can produce from [s] when the clock reads at least
    [clock]: the clock never runs backwards and every event is enabled. *)
Fixpoint admissible (clock : Z) (s : Hook) (tr : list Event) : bool :=
  match tr with
  | [] => true
  | e :: tr' =>
    (clock <=? clockOf e)%Z && enabled e s
    && admissible (clockOf e) (step e s) tr'
  end.

(** The smoothed level an [analyzeAudio] run on [dataArray] computes in [s]. *)
Definition smoothedAfter (dataArray : Snapshot) (s : Hook) : Q :=
  smoothedLevel (pushVolume (normalizedLevel dataArray) (volumeHistoryRef s)).

(** Event [e], run in [s], is an analysis tick that finds the smoothed level
    above the threshold. *)
Definition tickAbove (s : Hook) (e : Event) : bool :=
  match e with
  | Frame _ _ _ dataArray =>
    isSome (analyserRef s) && aboveThreshold (smoothedAfter dataArray s)
  | SilenceTimer _ => false
  end.

(** No analysis tick of [tr], run from [s], finds the smoothed level above
    the threshold. *)
Fixpoint allQuiet (s : Hook) (tr : list Event) : bool :=
  match tr with
  | [] => true
  | e :: tr' => negb (tickAbove s e) && allQuiet (step e s) tr'
  end.

(** At clock [now], after the events [pre] from [s0], the smoothed level has
    been at or below the threshold for at least [SILENCE_DELAY]: some tick at
    [armed <= now - SILENCE_DELAY], read as speaking by its callback, found
    it so, and so did every tick since. *)
Definition confirmedSilence (s0 : Hook) (pre : list Event) (armed now : Z)
    : Prop :=
  exists pre1 id dataArray pre2,
    pre = pre1 ++ Frame id true armed dataArray :: pre2
    /\ allQuiet (run s0 pre1) (Frame id true armed dataArray :: pre2) = true
    /\ (armed + SILENCE_DELAY <= now)%Z.

(** The normalised levels the analysis ticks of [tr] push, oldest first. *)
Fixpoint pushedLevels (tr : list Event) : list Q :=
  match tr with
  | [] => []
  | Frame _ _ _ dataArray :: tr' => normalizedLevel dataArray :: pushedLevels tr'
  | SilenceTimer _ :: tr' => pushedLevels tr'
  end.

(** The callback run by [e] reads [isSpeaking = false]. *)
Definition readsNotSpeaking (e : Event) : bool :=
  match e with
  | Frame _ speakingSeen _ _ => negb speakingSeen
  | SilenceTimer _ => true
  end.

(** The clock reading of the last event of [tr], or [clock] if there is
    none. *)
Definition lastClock (clock : Z) (tr : list Event) : Z :=
  fold_left (fun _ e => clockOf e) tr clock.

(** The invariant of the loop.  The stored onset time never lies in the
    future; and while a silence-confirmation timeout is pending, it was armed
    by a tick that read [isSpeaking = true] and found the level at or below
    the threshold, no tick since has found it above, and the stored onset time
    is not later than the arming. *)
Definition loopInvariant (clock : Z) (s0 : Hook) (pre : list Event) : Prop :=
  (lastSpeakingTimeRef (run s0 pre) <= lastClock clock pre)%Z
  /\ forall armed : Z,
     silenceTimeoutRef (run s0 pre) = Some armed ->
     (lastSpeakingTimeRef (run s0 pre) <= armed)%Z
     /\ exists pre1 id d pre2,
         pre = pre1 ++ Frame id true armed d :: pre2
         /\ allQuiet (run s0 pre1) (Frame id true armed d :: pre2) = true.

(** [e] is an animation frame. *)
Definition isFrame (e : Event) : bool :=
  match e with
  | Frame _ _ _ _ => true
  | SilenceTimer _ => false
  end.

(** The raw sample of the tick [e] runs is at or below the threshold. *)
Definition quietSample (e : Event) : bool :=
  match e with
  | Frame _ _ _ dataArray => negb (aboveThreshold (normalizedLevel dataArray))
  | SilenceTimer _ => true
  end.

(** A level between 0 and 1. *)
Definition unitLevel (x : Q) : Prop := 0 <= x <= 1.

(** [s] with the browser's list of pending animation frames replaced. *)
Definition withFrames (frames : list nat) (s : Hook) : Hook :=
  setPlatform
    (mkPlatform (liveStreams (platform s)) (openContexts (platform s))
       frames (nextHandle (platform s)))
    s.

(** *** Sample sessions *)

Definition silentBuffer : Snapshot := mkSnapshot x00 [x00; x00; x00].
Definition loudBuffer : Snapshot := mkSnapshot xff [xff; xff; xff].

(** A session opened on the fresh hook, before its first tick. *)
Definition sessionStart : Hook := openSession initial.

(** Twelve frames of rising level. *)
Definition risingFrames : list Event :=
  map (fun b => Frame 0 false 0 (mkSnapshot b []))
    [x00; x01; x02; x03; x04; x05; x06; x07; x08; x09; x0a; x0b].

(** A silent first tick followed by a loud one. *)
Definition silentThenLoud : Hook :=
  analyzeAudio false 16 loudBuffer
    (startListening false (Granted 0 silentBuffer) initial).

(** One loud tick, then ten silent ticks 16 ms apart whose callbacks read
    [isSpeaking = true] (callbacks built after the flag was set); the tenth
    empties the history of the loud sample. *)
Definition loudThenSilence : list Event :=
  Frame 4 false 0 loudBuffer
  :: map (fun k => Frame 0 true (16 * Z.of_nat k) silentBuffer) (seq 1 10).


End Mic.

(** ** Waveform *)

Module Waveform.

Definition silenceThreshold : Q := 0.01.

Record CanvasSize : Type := mkCanvasSize {
  width : Q;
  height : Q
}.

(** [updateCanvasSize], the same in both listings of the component.  [width]
    and [height] are the props, [container] is
    [canvasRef.current?.parentElement] given by its [clientWidth] (an integer
    number of pixels), and [canvasSize] the state the call may replace. *)
Definition updateCanvasSize (width height : Q) (container : option Z)
    (canvasSize : CanvasSize) : CanvasSize :=
  match container with
  | Some clientWidth =>
    let containerWidth := inject_Z clientWidth in
    let calculatedWidth := containerWidth * 0.95 in
    let minWidth := Qmax calculatedWidth 320 in
    let finalWidth := Qmin minWidth 800 in
    let aspectRatio := height / width in
    let responsiveHeight := finalWidth * aspectRatio in
    mkCanvasSize finalWidth (Qmin responsiveHeight 200)
  | None => canvasSize
  end.

(** [(dataArray[i] - 128) / 128]. *)
Definition sample (b : byte) : Q := (byteVal b - 128) / 128.

(** The [for] loop accumulating [sum += sample * sample]. *)
Definition sumSquares (dataArray : list byte) : Q :=
  fold_left (fun sum b => sum + sample b * sample b) dataArray 0.

(** [currentVolume > silenceThreshold] with
    [currentVolume = Math.sqrt(sum / bufferLength)].  The square root is
    monotone and the threshold positive, so the test is the same test on the
    squares, which stays within the rationals. *)
Definition volumeAboveThreshold (dataArray : list byte) : bool :=
  Qgtb (sumSquares dataArray / lengthQ dataArray)
       (silenceThreshold * silenceThreshold).

(** [const speaking = currentVolume > silenceThreshold || isSpeaking]. *)
Definition speakingDecision (dataArray : list byte) (isSpeaking : bool) : bool :=
  volumeAboveThreshold dataArray || isSpeaking.

(** Which of the two drawings a frame produces. *)
Inductive Drawing : Type :=
  | ActiveWaveform
  | FlatLine.

(** [drawWaveform] of the first listing (raw waveform plot).  [analyser] is
    [None] when the canvas, its 2d context or the analyser is missing and the
    frame is skipped; otherwise it is the buffer after
    [getByteTimeDomainData]. *)
Definition drawWaveform (analyser : option (list byte)) (isSpeaking : bool)
    : option Drawing :=
  match analyser with
  | None => None
  | Some dataArray =>
    let speaking := speakingDecision dataArray isSpeaking in
    if speaking then Some ActiveWaveform else Some FlatLine
  end.

(** [drawWaveform] of the second listing (sine overlay): the overlay is drawn
    [if (speaking && currentVolume > silenceThreshold)]. *)
Definition drawWaveformOverlay (analyser : option (list byte))
    (isSpeaking : bool) : option Drawing :=
  match analyser with
  | None => None
  | Some dataArray =>
    let speaking := speakingDecision dataArray isSpeaking in
    if speaking && volumeAboveThreshold dataArray
    then Some ActiveWaveform
    else Some FlatLine
  end.

(** The points the active branch of the first listing visits, left to right
    ([moveTo] for the first, [lineTo] for the rest): [x] starts at 0 and grows
    by [sliceWidth] per sample, [y] is the sample scaled to the canvas. *)
Fixpoint plotFrom (sliceWidth canvasHeight x : Q) (dataArray : list byte)
    : list (Q * Q) :=
  match dataArray with
  | [] => []
  | b :: rest =>
    let v := byteVal b / 128 in
    let y := (v * canvasHeight) / 2 in
    (x, y) :: plotFrom sliceWidth canvasHeight (x + sliceWidth) rest
  end.

Definition plotPoints (dataArray : list byte) (canvasSize : CanvasSize)
    : list (Q * Q) :=
  let sliceWidth := width canvasSize / lengthQ dataArray in
  plotFrom sliceWidth (height canvasSize) 0 dataArray.

(** How far a time-domain byte is from the rest value 128. *)
Definition restDistance (b : byte) : Z :=
  Z.abs (Z.of_N (Byte.to_N b) - 128).

End Waveform.

(** ** RecorderApp *)

Module Recorder.

(** The component state the timer and the two controls use, with the hook it
    owns. *)
Record App : Type := mkApp {
  recordingTime : nat;
  isRecording : bool;
  isPaused : bool;
  mic : Mic.Hook
}.

Definition initial : App := mkApp 0 false false Mic.initial.

(** The timer effect installs [setInterval(..., 1000)] exactly when this
    holds, and its cleanup clears the interval whenever one of the three flags
    changes. *)
Definition timerRunning (a : App) : bool :=
  isRecording a && Mic.isListening (mic a) && negb (isPaused a).

(** One second passes in state [a]: the interval, if installed, runs
    [setRecordingTime((prev) => prev + 1)]. *)
Definition secondElapsed (a : App) : App :=
  if timerRunning a
  then mkApp (recordingTime a + 1) (isRecording a) (isPaused a) (mic a)
  else a.

(** [handleRecordingToggle]; [r] is what [getUserMedia] answers if the
    handler gets to call [startListening], whose [analyzeAudio] reads the
    [isSpeaking] of the render the click happens in. *)
Definition handleRecordingToggle (r : Mic.MediaOutcome) (a : App) : App :=
  if negb (isRecording a) && negb (isPaused a) then
    let m := Mic.startListening (Mic.isSpeaking (mic a)) r (mic a) in
    mkApp 0 true false m
  else if isRecording a && negb (isPaused a) then
    let m := Mic.stopListening (mic a) in
    mkApp (recordingTime a) (isRecording a) true m
  else if isPaused a then
    let m := Mic.startListening (Mic.isSpeaking (mic a)) r (mic a) in
    mkApp (recordingTime a) (isRecording a) false m
  else a.

Definition handleStopRecording (a : App) : App :=
  let m := Mic.stopListening (mic a) in
  mkApp 0 false false m.

(** [n] seconds passing with no control pressed. *)
Fixpoint secondsElapsed (n : nat) (a : App) : App :=
  match n with
  | O => a
  | S n' => secondsElapsed n' (secondElapsed a)
  end.

(** *** formatTime *)

Import Ascii.

(** [n.toString()] for a non-negative integer. *)
Definition toString (n : nat) : string :=
  DecimalString.NilEmpty.string_of_uint (Nat.to_uint n).

Fixpoint zeros (n : nat) : string :=
  match n with
  | O => EmptyString
  | S n' => String "0"%char (zeros n')
  end.

(** [s.padStart(targetLength, "0")]. *)
Definition padStart (targetLength : nat) (s : string) : string :=
  String.append (zeros (targetLength - String.length s)) s.

Definition formatTime (seconds : nat) : string :=
  let mins := (seconds / 60)%nat in
  let secs := (seconds mod 60)%nat in
  String.append (padStart 2 (toString mins))
    (String.append ":"%string (padStart 2 (toString secs))).

(** The number a string of decimal digits stands for, leading zeros
    allowed. *)
Definition readNat (s : string) : option nat :=
  option_map Nat.of_uint (DecimalString.NilEmpty.uint_of_string s).

(** *** The recorder as a machine *)

(** What can happen to the component: a press of the toggle (with the answer
    [getUserMedia] would give), a press of stop, a second passing, or the
    browser running one of the hook's callbacks.  Each handler runs to
    completion before the next event: the machine covers the runs in which
    nothing arrives while [handleRecordingToggle] is suspended at
    [await startListening()].  Runs with a press during that wait are outside
    it, and what is proved of [perform] is proved under this condition. *)
Inductive Action : Type :=
  | Toggle (r : Mic.MediaOutcome)
  | StopControl
  | Second
  | Callback (e : Mic.Event).

Definition act (x : Action) (a : App) : App :=
  match x with
  | Toggle r => handleRecordingToggle r a
  | StopControl => handleStopRecording a
  | Second => secondElapsed a
  | Callback e =>
    mkApp (recordingTime a) (isRecording a) (isPaused a) (Mic.step e (mic a))
  end.

(** The browser only runs an animation-frame callback whose request is
    pending, and the timeout callback only when its timeout is pending and
    due. *)
Definition possible (x : Action) (a : App) : bool :=
  match x with
  | Callback (Mic.Frame id _ _ _) =>
    existsb (Nat.eqb id) (Mic.pendingFrames (Mic.platform (mic a)))
  | Callback (Mic.SilenceTimer now) =>
    Mic.enabled (Mic.SilenceTimer now) (mic a)
  | _ => true
  end.

(** The state after the actions [xs], if each was possible in turn. *)
Fixpoint perform (a : App) (xs : list Action) : option App :=
  match xs with
  | [] => Some a
  | x :: xs' => if possible x a then perform (act x a) xs' else None
  end.

(** A short session at the controls: start (granted), one frame, two
    seconds, pause, one second, resume (granted), one second. *)
Definition sampleSession : list Action :=
  [ Toggle (Mic.Granted 0 Mic.loudBuffer);
    Callback (Mic.Frame 4 false 16 Mic.silentBuffer);
    Second; Second;
    Toggle Mic.Denied;
    Second;
    Toggle (Mic.Granted 3000 Mic.silentBuffer);
    Second ].

Definition sampleEnd : App :=
  fold_left (fun a x => act x a) sampleSession initial.


(** The hook holds no session and nothing of it is left in the browser. *)
Definition micIdle (m : Mic.Hook) : Prop :=
  Mic.isListening m = false
  /\ Mic.mediaStreamRef m = None
  /\ Mic.audioContextRef m = None
  /\ Mic.analyserRef m = None
  /\ Mic.silenceTimeoutRef m = None
  /\ Mic.liveStreams (Mic.platform m) = []
  /\ Mic.openContexts (Mic.platform m) = []
  /\ Mic.pendingFrames (Mic.platform m) = [].

(** The hook holds exactly one session: one live stream, one open context,
    an analyser, and one pending animation frame, all named by its refs. *)
Definition micLive (m : Mic.Hook) : Prop :=
  Mic.isListening m = true
  /\ Mic.isSome (Mic.analyserRef m) = true
  /\ exists stream ctx frame,
      Mic.mediaStreamRef m = Some stream
      /\ Mic.audioContextRef m = Some ctx
      /\ Mic.animationFrameRef m = Some frame
      /\ Mic.liveStreams (Mic.platform m) = [stream]
      /\ Mic.openContexts (Mic.platform m) = [ctx]
      /\ Mic.pendingFrames (Mic.platform m) = [frame].

(** The invariant of the recorder: the hook is idle, or it holds exactly one
    session and the recorder is recording and not paused; and the recorder is
    never paused without recording. *)
Definition appInvariant (a : App) : Prop :=
  (micIdle (mic a)
   \/ (micLive (mic a) /\ isRecording a = true /\ isPaused a = false))
  /\ (isPaused a = true -> isRecording a = true).

End Recorder.

(** * Properties *)

(** ** Lists: the last [n] elements *)

Section LastN.

Context {A : Type}.

Lemma lastn_length (n : nat) (l : list A) :
  List.length (lastn n l) = Nat.min (List.length l) n.
Proof.
  unfold lastn. rewrite length_skipn. lia.
Qed.

Lemma lastn_short (n : nat) (l : list A) :
  (List.length l <= n)%nat -> lastn n l = l.
Proof.
  intro H. unfold lastn.
  replace (List.length l - n)%nat with 0%nat by lia. reflexivity.
Qed.

Lemma lastn_app_lastn (n : nat) (l xs : list A) :
  lastn n (lastn n l ++ xs) = lastn n (l ++ xs).
Proof.
  destruct (Nat.le_gt_cases (List.length l) n) as [Hle | Hgt].
  - rewrite (lastn_short n l Hle). reflexivity.
  - unfold lastn at 1 3.
    rewrite !length_app, lastn_length, !skipn_app.
    unfold lastn. rewrite skipn_skipn, length_skipn.
    f_equal; f_equal; lia.
Qed.

End LastN.

(** ** The analysis hook *)

Module MicFacts.

Import Mic.

(** *** What one callback changes *)

(** Case analysis on the branches a tick can take. *)
Ltac tick_cases :=
  repeat match goal with
         | |- context [ if ?b then _ else _ ] => destruct b; cbn
         | |- context [ match silenceTimeoutRef ?x with _ => _ end ] =>
           destruct (silenceTimeoutRef x); cbn
         end.

Lemma pushVolume_lastn (x : Q) (h : list Q) :
  (List.length h <= VOLUME_HISTORY_SIZE)%nat ->
  pushVolume x h = lastn VOLUME_HISTORY_SIZE (h ++ [x]).
Proof.
  intro Hlen. unfold pushVolume, lastn, VOLUME_HISTORY_SIZE in *.
  rewrite length_app. simpl List.length.
  destruct (Nat.ltb_spec 10 (List.length h + 1)) as [Hfull | Hroom].
  - replace (List.length h + 1 - 10)%nat with 1%nat by lia.
    destruct (h ++ [x]); reflexivity.
  - replace (List.length h + 1 - 10)%nat with 0%nat by lia. reflexivity.
Qed.

Lemma analyzeAudio_history (c : bool) (now : Z) (d : Snapshot) (s : Hook) :
  volumeHistoryRef (analyzeAudio c now d s) =
  match analyserRef s with
  | Some _ => pushVolume (normalizedLevel d) (volumeHistoryRef s)
  | None => volumeHistoryRef s
  end.
Proof.
  unfold analyzeAudio, scheduleNextFrame, clearSilenceTimeout.
  destruct (analyserRef s); [ | reflexivity ].
  cbn. tick_cases; reflexivity.
Qed.

Lemma analyzeAudio_analyser (c : bool) (now : Z) (d : Snapshot) (s : Hook) :
  analyserRef (analyzeAudio c now d s) = analyserRef s.
Proof.
  unfold analyzeAudio, scheduleNextFrame, clearSilenceTimeout.
  destruct (analyserRef s) eqn:Han; [ | assumption ].
  cbn. tick_cases; assumption.
Qed.

Lemma step_analyser (e : Event) (s : Hook) :
  analyserRef (step e s) = analyserRef s.
Proof.
  destruct e; cbn -[analyzeAudio].
  - rewrite analyzeAudio_analyser. reflexivity.
  - unfold silenceTimeoutFired. destruct (_ <=? _)%Z; reflexivity.
Qed.

Lemma step_history (e : Event) (s : Hook) :
  isSome (analyserRef s) = true ->
  volumeHistoryRef (step e s) =
  match e with
  | Frame _ _ _ d => pushVolume (normalizedLevel d) (volumeHistoryRef s)
  | SilenceTimer _ => volumeHistoryRef s
  end.
Proof.
  intro Han. destruct e; cbn -[analyzeAudio].
  - rewrite analyzeAudio_history. cbn.
    destruct (analyserRef s); [ reflexivity | discriminate ].
  - unfold silenceTimeoutFired. destruct (_ <=? _)%Z; reflexivity.
Qed.

Lemma run_history (tr : list Event) : forall s : Hook,
  isSome (analyserRef s) = true ->
  (List.length (volumeHistoryRef s) <= VOLUME_HISTORY_SIZE)%nat ->
  volumeHistoryRef (run s tr) =
  lastn VOLUME_HISTORY_SIZE (volumeHistoryRef s ++ pushedLevels tr).
Proof.
  induction tr as [ | e tr IH ]; intros s Han Hlen.
  - cbn. rewrite app_nil_r. symmetry. apply lastn_short. exact Hlen.
  - change (run s (e :: tr)) with (run (step e s) tr).
    assert (Hstep := step_history e s Han).
    rewrite IH.
    + rewrite Hstep. destruct e as [ id c now d | now ]; cbn [pushedLevels].
      * rewrite (pushVolume_lastn _ _ Hlen), lastn_app_lastn, <- app_assoc.
        reflexivity.
      * reflexivity.
    + rewrite step_analyser. exact Han.
    + rewrite Hstep. destruct e as [ id c now d | now ]; [ | exact Hlen ].
      rewrite (pushVolume_lastn _ _ Hlen), lastn_length. lia.
Qed.

(** C2.  Starting the loop on an empty volume history, after any sequence of
    callbacks the history holds at most ten samples, and it is exactly the
    most recent [min n 10] of the [n] samples the ticks pushed, oldest first. *)
Theorem volume_history_window (s0 : Hook) (tr : list Event) :
  isSome (analyserRef s0) = true ->
  volumeHistoryRef s0 = [] ->
  let history := volumeHistoryRef (run s0 tr) in
  let pushed := pushedLevels tr in
  (List.length history <= 10)%nat
  /\ List.length history = Nat.min (List.length pushed) 10
  /\ history = skipn (List.length pushed - 10) pushed.
Proof.
  intros Han Hempty history pushed.
  assert (Hrun : history = lastn VOLUME_HISTORY_SIZE pushed).
  { unfold history. rewrite run_history; [ | exact Han | ].
    - rewrite Hempty. reflexivity.
    - rewrite Hempty. cbn. lia. }
  rewrite Hrun. rewrite lastn_length. unfold VOLUME_HISTORY_SIZE.
  repeat split; try reflexivity; lia.
Qed.

Lemma volume_history_window_witness :
  isSome (analyserRef sessionStart) = true
  /\ volumeHistoryRef sessionStart = []
  /\ (let history := volumeHistoryRef (run sessionStart risingFrames) in
      let pushed := pushedLevels risingFrames in
      (List.length history <= 10)%nat
      /\ List.length history = Nat.min (List.length pushed) 10
      /\ history = skipn (List.length pushed - 10) pushed).
Proof.
  split; [ reflexivity | split; [ reflexivity | ] ].
  apply (volume_history_window sessionStart risingFrames); reflexivity.
Defined.

(** *** The exposed level *)

Lemma byteVal_range (b : byte) : 0 <= byteVal b <= 255.
Proof.
  unfold byteVal. pose proof (Byte.to_N_bounded b) as Hb.
  split.
  - change 0 with (inject_Z 0). rewrite <- Zle_Qle. lia.
  - change 255 with (inject_Z 255). rewrite <- Zle_Qle. lia.
Qed.

Lemma lengthQ_cons {A : Type} (x : A) (xs : list A) :
  lengthQ (x :: xs) == lengthQ xs + 1.
Proof.
  unfold lengthQ. cbn [List.length]. rewrite Nat2Z.inj_succ.
  unfold Z.succ. rewrite inject_Z_plus. reflexivity.
Qed.

Lemma lengthQ_nonneg {A : Type} (xs : list A) : 0 <= lengthQ xs.
Proof.
  unfold lengthQ. change 0 with (inject_Z 0). rewrite <- Zle_Qle. lia.
Qed.

Lemma reduceSum_bytes_range (bs : list byte) : forall init : Q,
  init <= reduceSum init (map byteVal bs)
  /\ reduceSum init (map byteVal bs) <= init + 255 * lengthQ bs.
Proof.
  induction bs as [ | b bs IH ]; intro init.
  - unfold reduceSum, lengthQ. cbn [map fold_left List.length Z.of_nat].
    change (inject_Z 0) with 0. split; lra.
  - cbn [map]. unfold reduceSum. cbn [fold_left].
    destruct (IH (init + byteVal b)) as [Hlo Hhi].
    pose proof (byteVal_range b) as [Hb0 Hb1].
    pose proof (lengthQ_cons b bs) as Hlen.
    unfold reduceSum in *. split; [ lra | ].
    rewrite Hlen. lra.
Qed.

Lemma normalizedLevel_range (d : Snapshot) :
  0 <= normalizedLevel d <= 1.
Proof.
  unfold normalizedLevel, average.
  pose proof (reduceSum_bytes_range (bins d) (byteVal (bin0 d))) as [Hlo Hhi].
  pose proof (byteVal_range (bin0 d)) as [Hb0 Hb1].
  pose proof (lengthQ_nonneg (bins d)) as Hn.
  pose proof (lengthQ_cons (bin0 d) (bins d)) as Hlen.
  fold (binList d) in Hlen.
  set (total := reduceSum _ _) in *. set (n := lengthQ (binList d)) in *.
  assert (Hpos : 0 < n) by lra.
  split.
  - apply Qle_shift_div_l; [ lra | ].
    rewrite Qmult_0_l. apply Qle_shift_div_l; [ exact Hpos | ]. lra.
  - apply Qle_shift_div_r; [ lra | ].
    apply Qle_shift_div_r; [ exact Hpos | lra ].
Qed.

Lemma pushVolume_newest (x : Q) (h : list Q) :
  last (pushVolume x h) 0 = x.
Proof.
  unfold pushVolume.
  destruct (Nat.ltb VOLUME_HISTORY_SIZE (List.length (h ++ [x]))) eqn:Hfull;
    [ | apply last_last ].
  destruct h as [ | y h ].
  - discriminate Hfull.
  - apply (last_last h x 0).
Qed.

Lemma analyzeAudio_level (c : bool) (now : Z) (d : Snapshot) (s : Hook) :
  isSome (analyserRef s) = true ->
  audioLevel (analyzeAudio c now d s) = normalizedLevel d.
Proof.
  unfold analyzeAudio, scheduleNextFrame, clearSilenceTimeout.
  destruct (analyserRef s); [ intros _ | discriminate ].
  cbn. tick_cases; reflexivity.
Qed.

(** C3, as the code has it.  After an analysis tick the exposed [audioLevel]
    is the raw sample of that tick: the mean bin magnitude divided by 255, a
    value between 0 and 1, which is also the newest entry of the volume
    history.  (The mean of the history is computed by the same tick, for the
    speaking decision.) *)
Theorem audio_level_is_raw_sample
    (c : bool) (now : Z) (d : Snapshot) (s : Hook) :
  isSome (analyserRef s) = true ->
  let s' := analyzeAudio c now d s in
  audioLevel s' = normalizedLevel d
  /\ 0 <= audioLevel s' <= 1
  /\ last (volumeHistoryRef s') 0 = audioLevel s'.
Proof.
  intros Han s'. unfold s'.
  rewrite (analyzeAudio_level c now d s Han), analyzeAudio_history.
  destruct (analyserRef s); [ | discriminate ].
  split; [ reflexivity | split ].
  - apply normalizedLevel_range.
  - apply pushVolume_newest.
Qed.

Lemma audio_level_is_raw_sample_witness :
  isSome (analyserRef sessionStart) = true
  /\ (let s' := analyzeAudio false 0 loudBuffer sessionStart in
      audioLevel s' = normalizedLevel loudBuffer
      /\ 0 <= audioLevel s' <= 1
      /\ last (volumeHistoryRef s') 0 = audioLevel s').
Proof.
  split; [ reflexivity | ].
  apply (audio_level_is_raw_sample false 0 loudBuffer sessionStart).
  reflexivity.
Defined.

(** C3, as the specification has it, fails: after a silent tick and a loud
    one the exposed level is 1 while the mean of the history is 1/2. *)
Lemma audio_level_not_smoothed :
  audioLevel silentThenLoud == 1
  /\ smoothedLevel (volumeHistoryRef silentThenLoud) == 1 # 2
  /\ ~ audioLevel silentThenLoud
       == smoothedLevel (volumeHistoryRef silentThenLoud).
Proof.
  repeat split; vm_compute; congruence.
Qed.

(** *** stopListening *)

Lemma removeHandle_twice (h : nat) (hs : list nat) :
  removeHandle h (removeHandle h hs) = removeHandle h hs.
Proof.
  unfold removeHandle. induction hs as [ | x hs IH ]; [ reflexivity | ].
  cbn. destruct (Nat.eqb x h) eqn:Hx; cbn; [ exact IH | ].
  rewrite Hx. cbn. f_equal. exact IH.
Qed.

(** C4.  Stopping twice is stopping once, from any state; and a stopped hook
    reports level 0, not speaking, not listening, has an empty volume
    history, null stream, context and analyser handles, and no pending
    silence-confirmation timeout (so that callback can no longer run). *)
Theorem stopListening_idempotent (s : Hook) :
  stopListening (stopListening s) = stopListening s
  /\ audioLevel (stopListening s) = 0
  /\ isSpeaking (stopListening s) = false
  /\ isListening (stopListening s) = false
  /\ volumeHistoryRef (stopListening s) = []
  /\ analyserRef (stopListening s) = None
  /\ mediaStreamRef (stopListening s) = None
  /\ audioContextRef (stopListening s) = None
  /\ silenceTimeoutRef (stopListening s) = None
  /\ (forall now, enabled (SilenceTimer now) (stopListening s) = false).
Proof.
  destruct s as [ li sp hp al er ms ac an af st vh ls [ streams ctxs frames nh ] ].
  destruct af as [ id | ], st as [ armed | ], ms as [ stream | ],
    ac as [ ctx | ]; cbv -[removeHandle];
    repeat split; rewrite ?removeHandle_twice; reflexivity.
Qed.

(** *** startListening *)

(** C5.  When [getUserMedia] rejects, [startListening] reports permission
    denied and a non-null error message and touches nothing else: the
    listening flag, the stream, context and analyser handles and everything
    the platform holds are as before, so on an idle hook (fresh, or stopped)
    listening stays false and the three handles stay null. *)
Theorem startListening_denied (c : bool) (s : Hook) :
  let s' := startListening c Denied s in
  hasPermission s' = Some false
  /\ error s' = Some deniedMessage
  /\ error s' <> None
  /\ isListening s' = isListening s
  /\ mediaStreamRef s' = mediaStreamRef s
  /\ audioContextRef s' = audioContextRef s
  /\ analyserRef s' = analyserRef s
  /\ platform s' = platform s
  /\ (let idle := startListening c Denied (stopListening s) in
      isListening idle = false /\ mediaStreamRef idle = None
      /\ audioContextRef idle = None /\ analyserRef idle = None)
  /\ (let fresh := startListening c Denied initial in
      isListening fresh = false /\ mediaStreamRef fresh = None
      /\ audioContextRef fresh = None /\ analyserRef fresh = None).
Proof.
  cbn -[stopListening]. repeat split; try discriminate.
  all: destruct s as [ li sp hp al er ms ac an af st vh ls p ];
    unfold stopListening, clearSilenceTimeout;
    destruct af, st, ms, ac; reflexivity.
Qed.

(** C6, at the input where the code departs from it.  Two granted
    [startListening] calls in a row on the fresh hook leave two streams with
    running tracks and two open audio contexts; a [stopListening] after them
    releases only the second pair, so the first session stays live. *)
Theorem second_start_leaks_first_session :
  let s1 := startListening false (Granted 0 silentBuffer) initial in
  let s2 := startListening false (Granted 1000 silentBuffer) s1 in
  liveStreams (platform s1) = [1%nat]
  /\ openContexts (platform s1) = [2%nat]
  /\ liveStreams (platform s2) = [5%nat; 1%nat]
  /\ openContexts (platform s2) = [6%nat; 2%nat]
  /\ mediaStreamRef s2 = Some 5%nat
  /\ liveStreams (platform (stopListening s2)) = [1%nat]
  /\ openContexts (platform (stopListening s2)) = [2%nat].
Proof.
  vm_compute. repeat split.
Qed.

(** *** Runs of the loop *)

Lemma run_snoc (s : Hook) (tr : list Event) (e : Event) :
  run s (tr ++ [e]) = step e (run s tr).
Proof.
  unfold run. rewrite fold_left_app. reflexivity.
Qed.

Lemma run_app (s : Hook) (tr1 tr2 : list Event) :
  run s (tr1 ++ tr2) = run (run s tr1) tr2.
Proof.
  unfold run. apply fold_left_app.
Qed.

Lemma lastClock_snoc (clock : Z) (tr : list Event) (e : Event) :
  lastClock clock (tr ++ [e]) = clockOf e.
Proof.
  unfold lastClock. rewrite fold_left_app. reflexivity.
Qed.

Lemma admissible_snoc (tr : list Event) (e : Event) :
  forall (clock : Z) (s : Hook),
  admissible clock s (tr ++ [e]) =
  admissible clock s tr
  && ((lastClock clock tr <=? clockOf e)%Z && enabled e (run s tr)).
Proof.
  induction tr as [ | e0 tr IH ]; intros clock s.
  - cbn. rewrite andb_true_r. reflexivity.
  - cbn [app admissible]. rewrite IH.
    change (lastClock clock (e0 :: tr)) with (lastClock (clockOf e0) tr).
    change (run s (e0 :: tr)) with (run (step e0 s) tr).
    rewrite <- !andb_assoc. reflexivity.
Qed.

Lemma allQuiet_snoc (tr : list Event) (e : Event) : forall s : Hook,
  allQuiet s (tr ++ [e]) = allQuiet s tr && negb (tickAbove (run s tr) e).
Proof.
  induction tr as [ | e0 tr IH ]; intro s.
  - cbn [app allQuiet run fold_left]. rewrite andb_true_r. reflexivity.
  - cbn [app allQuiet]. rewrite IH.
    change (run s (e0 :: tr)) with (run (step e0 s) tr).
    rewrite andb_assoc. reflexivity.
Qed.

(** What an animation frame does to the speaking state. *)
Lemma frame_effect (id : nat) (c : bool) (now : Z) (d : Snapshot) (s : Hook) :
  let e := Frame id c now d in
  silenceTimeoutRef (step e s) =
    (if tickAbove s e then None
     else if isSome (analyserRef s) && c && negb (isSome (silenceTimeoutRef s))
          then Some now
          else silenceTimeoutRef s)
  /\ lastSpeakingTimeRef (step e s) =
    (if tickAbove s e && negb c then now else lastSpeakingTimeRef s)
  /\ isSpeaking (step e s) =
    (if tickAbove s e && negb c then true else isSpeaking s).
Proof.
  unfold step, tickAbove, smoothedAfter, analyzeAudio, scheduleNextFrame,
    clearSilenceTimeout.
  cbn [analyserRef setPlatform volumeHistoryRef setVolumeHistoryRef
       setAudioLevel silenceTimeoutRef].
  destruct (analyserRef s); cbn [isSome andb]; [ | repeat split ].
  destruct (aboveThreshold _), c, (silenceTimeoutRef s) eqn:Hpending;
    cbn; repeat split; congruence.
Qed.

(** What the silence-confirmation callback does to the speaking state. *)
Lemma timer_effect (now : Z) (s : Hook) :
  let s' := step (SilenceTimer now) s in
  silenceTimeoutRef s' = None
  /\ lastSpeakingTimeRef s' = lastSpeakingTimeRef s
  /\ isSpeaking s' =
    (if (MIN_SPEAKING_DURATION <=? now - lastSpeakingTimeRef s)%Z
     then false else isSpeaking s).
Proof.
  cbn [step]. unfold silenceTimeoutFired.
  destruct (_ <=? _)%Z; repeat split.
Qed.

Lemma loopInvariant_holds (clock : Z) (s0 : Hook) :
  silenceTimeoutRef s0 = None ->
  (lastSpeakingTimeRef s0 <= clock)%Z ->
  forall pre : list Event,
  admissible clock s0 pre = true ->
  loopInvariant clock s0 pre.
Proof.
  intros Hidle Honset pre.
  induction pre as [ | e pre IH ] using rev_ind; intro Hadm.
  - split; [ exact Honset | ].
    intros armed Harmed. cbn in Harmed. congruence.
  - rewrite admissible_snoc in Hadm.
    apply andb_prop in Hadm as [Hpre Hlast].
    apply andb_prop in Hlast as [Hclock Hen].
    apply Z.leb_le in Hclock.
    destruct (IH Hpre) as [Hle Hpending]. clear IH.
    unfold loopInvariant. rewrite run_snoc, lastClock_snoc.
    set (s := run s0 pre) in *.
    destruct e as [ id c now d | now ].
    + destruct (frame_effect id c now d s) as (Htimer & Honset' & _).
      cbn [clockOf] in *. rewrite Htimer, Honset'. clear Htimer Honset'.
      destruct (tickAbove s (Frame id c now d)) eqn:Habove.
      * split; [ destruct (negb c); cbn; lia | intros armed [=] ].
      * cbn [andb]. split; [ lia | ].
        destruct (isSome (analyserRef s) && c
                  && negb (isSome (silenceTimeoutRef s))) eqn:Harm.
        -- intros armed [= <-].
           apply andb_prop in Harm as [Harm _].
           apply andb_prop in Harm as [_ ->].
           split; [ lia | ].
           exists pre, id, d, []. split; [ reflexivity | ].
           fold s. cbn [allQuiet]. rewrite Habove. reflexivity.
        -- intros armed Harmed.
           destruct (Hpending armed Harmed)
             as (Hle' & pre1 & id' & d' & pre2 & -> & Hquiet).
           split; [ exact Hle' | ].
           exists pre1, id', d', (pre2 ++ [Frame id c now d]).
           split; [ rewrite <- app_assoc; reflexivity | ].
           rewrite app_comm_cons, allQuiet_snoc, Hquiet, <- run_app.
           fold s. rewrite Habove. reflexivity.
    + destruct (timer_effect now s) as (Htimer & Honset' & _).
      cbn [clockOf] in *. rewrite Htimer, Honset'.
      split; [ lia | intros armed [=] ].
Qed.

(** A loop whose callback goes on reading [isSpeaking = false] (the callback
    reschedules itself, so it keeps the value of the render that built it)
    never arms the silence-confirmation timeout. *)
Remark loop_reading_not_speaking_never_arms (tr : list Event) :
  forall s : Hook,
  forallb readsNotSpeaking tr = true ->
  silenceTimeoutRef s = None ->
  silenceTimeoutRef (run s tr) = None.
Proof.
  induction tr as [ | e tr IH ]; intros s Hreads Hidle; [ exact Hidle | ].
  cbn [forallb] in Hreads. apply andb_prop in Hreads as [He Htr].
  change (run s (e :: tr)) with (run (step e s) tr).
  apply IH; [ exact Htr | ].
  destruct e as [ id c now d | now ].
  - destruct (frame_effect id c now d s) as (Htimer & _ & _).
    rewrite Htimer, Hidle. cbn in He. destruct c; [ discriminate | ].
    rewrite andb_false_r. destruct (tickAbove _ _); reflexivity.
  - apply timer_effect.
Qed.





(** C10.  Whenever the silence-confirmation callback runs, its timeout was
    armed at least 800 ms earlier by a tick that read [isSpeaking = true], the
    stored onset time is not later than that arming, so at least 800 ms have
    passed since the onset: the 200 ms guard holds and the callback sets the
    speaking flag to false. *)
Theorem silence_timer_guard_passes
    (clock : Z) (s0 : Hook) (pre : list Event) (now : Z) :
  silenceTimeoutRef s0 = None ->
  (lastSpeakingTimeRef s0 <= clock)%Z ->
  admissible clock s0 (pre ++ [SilenceTimer now]) = true ->
  let s := run s0 pre in
  exists armed : Z,
    silenceTimeoutRef s = Some armed
    /\ confirmedSilence s0 pre armed now
    /\ (lastSpeakingTimeRef s <= armed)%Z
    /\ (SILENCE_DELAY <= now - lastSpeakingTimeRef s)%Z
    /\ (MIN_SPEAKING_DURATION <=? now - lastSpeakingTimeRef s)%Z = true
    /\ isSpeaking (step (SilenceTimer now) s) = false.
Proof.
  intros Hidle Honset Hadm s.
  rewrite admissible_snoc in Hadm.
  apply andb_prop in Hadm as [Hpre Hlast].
  apply andb_prop in Hlast as [_ Hen]. fold s in Hen.
  destruct (loopInvariant_holds clock s0 Hidle Honset pre Hpre)
    as [_ Hpending]. fold s in Hpending.
  cbn [enabled] in Hen.
  destruct (silenceTimeoutRef s) as [ armed | ] eqn:Harmed;
    [ | discriminate ].
  apply Z.leb_le in Hen.
  destruct (Hpending armed eq_refl)
    as (Hle & pre1 & id & d & pre2 & Hsplit & Hquiet).
  assert (Hguard : (MIN_SPEAKING_DURATION <=? now - lastSpeakingTimeRef s)%Z
                   = true).
  { apply Z.leb_le. unfold MIN_SPEAKING_DURATION, SILENCE_DELAY in *. lia. }
  exists armed. split; [ reflexivity | split; [ | split; [ | split; [ | split ] ] ] ].
  - exists pre1, id, d, pre2. repeat split; assumption.
  - exact Hle.
  - unfold SILENCE_DELAY in *. lia.
  - exact Hguard.
  - destruct (timer_effect now s) as (_ & _ & Hflag).
    rewrite Hflag, Hguard. reflexivity.
Qed.

Lemma silence_timer_guard_passes_witness :
  silenceTimeoutRef sessionStart = None
  /\ (lastSpeakingTimeRef sessionStart <= 0)%Z
  /\ admissible 0 sessionStart (loudThenSilence ++ [SilenceTimer 1000]) = true
  /\ (let s := run sessionStart loudThenSilence in
      exists armed : Z,
        silenceTimeoutRef s = Some armed
        /\ confirmedSilence sessionStart loudThenSilence armed 1000
        /\ (lastSpeakingTimeRef s <= armed)%Z
        /\ (SILENCE_DELAY <= 1000 - lastSpeakingTimeRef s)%Z
        /\ (MIN_SPEAKING_DURATION <=? 1000 - lastSpeakingTimeRef s)%Z = true
        /\ isSpeaking (step (SilenceTimer 1000) s) = false).
Proof.
  split; [ reflexivity | split; [ vm_compute; discriminate | split ] ].
  - vm_compute. reflexivity.
  - apply (silence_timer_guard_passes 0 sessionStart loudThenSilence 1000).
    + reflexivity.
    + vm_compute. discriminate.
    + vm_compute. reflexivity.
Defined.

End MicFacts.

(** ** The renderer *)

Module WaveformFacts.

Import Waveform.

(** C8.  For a container of width [w >= 0] and props with a non-zero width,
    the recomputed canvas width is [min (max (0.95 w) 320) 800], so it lies
    between 320 and 800, and the height is [min (width * (height / width)) 200]
    on the props' aspect ratio, so it is at most 200.  With the 800 by 160
    props the recorder passes, a container 1000 wide gives 800 by 160. *)
Theorem canvas_size_clamped
    (w : Z) (propWidth propHeight : Q) (canvasSize : CanvasSize) :
  (0 <= w)%Z ->
  ~ propWidth == 0 ->
  let c := updateCanvasSize propWidth propHeight (Some w) canvasSize in
  width c == Qmin (Qmax (0.95 * inject_Z w) 320) 800
  /\ 320 <= width c <= 800
  /\ height c == Qmin (width c * (propHeight / propWidth)) 200
  /\ height c <= 200
  /\ (let c1000 := updateCanvasSize 800 160 (Some 1000%Z) canvasSize in
      width c1000 == 800 /\ height c1000 == 160).
Proof.
  intros _ _ c. unfold c, updateCanvasSize. cbn [width height].
  split; [ | split; [ split | split; [ | split; [ | split ] ] ] ].
  - rewrite (Qmult_comm (inject_Z w)). reflexivity.
  - apply Q.min_glb; [ | lra ].
    apply Qle_trans with (y := 320); [ lra | apply Q.le_max_r ].
  - apply Q.le_min_r.
  - reflexivity.
  - apply Q.le_min_r.
  - vm_compute. reflexivity.
  - vm_compute. reflexivity.
Qed.

Lemma canvas_size_clamped_witness :
  (0 <= 100)%Z
  /\ ~ 800 == 0
  /\ (let c := updateCanvasSize 800 160 (Some 100%Z) (mkCanvasSize 800 160) in
      width c == Qmin (Qmax (0.95 * inject_Z 100) 320) 800
      /\ 320 <= width c <= 800
      /\ height c == Qmin (width c * (160 / 800)) 200
      /\ height c <= 200
      /\ (let c1000 :=
            updateCanvasSize 800 160 (Some 1000%Z) (mkCanvasSize 800 160) in
          width c1000 == 800 /\ height c1000 == 160)).
Proof.
  split; [ lia | split; [ discriminate | ] ].
  apply (canvas_size_clamped 100 800 160 (mkCanvasSize 800 160));
    [ lia | discriminate ].
Defined.

(** C9, as the specification has it, fails for the second listing: with the
    external flag set and a buffer at rest (every sample at the midpoint 128)
    the speaking decision is true, yet the flat line is drawn. *)
Lemma overlay_ignores_external_flag :
  speakingDecision [x80; x80; x80; x80] true = true
  /\ drawWaveformOverlay (Some [x80; x80; x80; x80]) true = Some FlatLine
  /\ drawWaveformOverlay (Some [x80; x80; x80; x80]) true
     <> Some ActiveWaveform.
Proof.
  repeat split; vm_compute; congruence.
Qed.

(** C9, as the code has it.  On every frame that draws, the speaking decision
    is the disjunction of the local test (RMS above 0.01) and the external
    flag.  The first listing draws the active waveform exactly when that
    decision is true; the second listing draws its overlay exactly when the
    local test is true, whatever the external flag. *)
Theorem speaking_branch_selection (dataArray : list byte) (isSpeaking : bool) :
  speakingDecision dataArray isSpeaking
  = (volumeAboveThreshold dataArray || isSpeaking)%bool
  /\ drawWaveform (Some dataArray) isSpeaking
     = Some (if volumeAboveThreshold dataArray || isSpeaking
             then ActiveWaveform else FlatLine)
  /\ drawWaveformOverlay (Some dataArray) isSpeaking
     = Some (if volumeAboveThreshold dataArray
             then ActiveWaveform else FlatLine).
Proof.
  unfold drawWaveform, drawWaveformOverlay, speakingDecision.
  destruct (volumeAboveThreshold dataArray), isSpeaking; repeat split.
Qed.

End WaveformFacts.

(** ** The recorder shell *)

Module RecorderFacts.

Import Recorder.

Lemma secondsElapsed_stopped (n : nat) : forall a : App,
  timerRunning a = false -> secondsElapsed n a = a.
Proof.
  induction n as [ | n IH ]; intros a Hoff; [ reflexivity | ].
  cbn [secondsElapsed]. unfold secondElapsed. rewrite Hoff. apply IH, Hoff.
Qed.

(** C7.  A second passing adds exactly one to the recording time when the
    recorder is recording, listening and not paused, and leaves it alone
    otherwise.  Pausing a running recording keeps the time, stops the timer,
    and the time then stays put however many seconds pass.  The stop control
    sets the time to 0, and so does a start from idle. *)
Theorem recording_timer (a : App) (r : Mic.MediaOutcome) :
  (timerRunning a = true ->
     recordingTime (secondElapsed a) = (recordingTime a + 1)%nat)
  /\ (timerRunning a = false ->
     recordingTime (secondElapsed a) = recordingTime a)
  /\ (recordingTime (secondElapsed a) = (recordingTime a + 1)%nat
      <-> (isRecording a = true /\ Mic.isListening (mic a) = true
           /\ isPaused a = false))
  /\ (isRecording a = true -> isPaused a = false ->
      let paused := handleRecordingToggle r a in
      isPaused paused = true
      /\ recordingTime paused = recordingTime a
      /\ timerRunning paused = false
      /\ forall n, recordingTime (secondsElapsed n paused) = recordingTime a)
  /\ recordingTime (handleStopRecording a) = 0%nat
  /\ (isRecording a = false -> isPaused a = false ->
      recordingTime (handleRecordingToggle r a) = 0%nat).
Proof.
  destruct a as [ t rec pau m ].
  unfold secondElapsed, timerRunning, handleRecordingToggle,
    handleStopRecording.
  cbn [recordingTime isRecording isPaused mic].
  split; [ | split; [ | split; [ | split; [ | split ] ] ] ].
  - intros ->. reflexivity.
  - intros ->. reflexivity.
  - destruct rec, pau, (Mic.isListening m); cbn; split;
      try (intros (? & ? & ?); discriminate); try intro; try lia; auto.
  - intros -> ->. cbn [negb andb].
    assert (Hoff : timerRunning
              (mkApp t true true (Mic.stopListening m)) = false).
    { unfold timerRunning. cbn [isRecording isPaused mic negb].
      apply andb_false_r. }
    repeat split; try exact Hoff.
    intro n. rewrite (secondsElapsed_stopped n _ Hoff). reflexivity.
  - reflexivity.
  - intros -> ->. reflexivity.
Qed.

(** A recording started on the fresh recorder with the microphone granted. *)
Lemma recording_timer_witness :
  timerRunning (handleRecordingToggle
                  (Mic.Granted 0 Mic.silentBuffer) initial) = true
  /\ recordingTime
       (secondElapsed (handleRecordingToggle
                         (Mic.Granted 0 Mic.silentBuffer) initial)) = 1%nat
  /\ recordingTime
       (handleRecordingToggle Mic.Denied
          (secondElapsed (handleRecordingToggle
                            (Mic.Granted 0 Mic.silentBuffer) initial)))
     = 1%nat.
Proof.
  split; [ reflexivity | split ].
  - apply (proj1 (recording_timer
                    (handleRecordingToggle
                       (Mic.Granted 0 Mic.silentBuffer) initial)
                    Mic.Denied)).
    reflexivity.
  - apply (proj1 (proj2 (proj1 (proj2 (proj2 (proj2
             (recording_timer
                (secondElapsed (handleRecordingToggle
                                  (Mic.Granted 0 Mic.silentBuffer) initial))
                Mic.Denied))))
             eq_refl eq_refl))).
Defined.

End RecorderFacts.

(** ** More on the analysis hook *)

Module MicMore.

Import Mic MicFacts.

(** *** Sums and means *)

Lemma aboveThreshold_lt (level : Q) :
  aboveThreshold level = true <-> SILENCE_THRESHOLD < level.
Proof.
  unfold aboveThreshold, Qgtb. rewrite negb_true_iff.
  split.
  - intro H. apply Qnot_le_lt. intro Hle.
    apply Qle_bool_iff in Hle. congruence.
  - intro H. destruct (Qle_bool level SILENCE_THRESHOLD) eqn:Hb;
      [ | reflexivity ].
    apply Qle_bool_iff in Hb. apply Qlt_not_le in H. contradiction.
Qed.

Lemma aboveThreshold_le (level : Q) :
  aboveThreshold level = false <-> level <= SILENCE_THRESHOLD.
Proof.
  unfold aboveThreshold, Qgtb. rewrite negb_false_iff.
  apply Qle_bool_iff.
Qed.

Lemma reduceSum_bounds (lo hi : Q) (xs : list Q) : forall init : Q,
  Forall (fun x => lo <= x <= hi) xs ->
  init + lo * lengthQ xs <= reduceSum init xs
  /\ reduceSum init xs <= init + hi * lengthQ xs.
Proof.
  induction xs as [ | x xs IH ]; intros init Hall.
  - unfold reduceSum, lengthQ. cbn [fold_left List.length Z.of_nat].
    change (inject_Z 0) with 0. split; lra.
  - inversion Hall as [ | ? ? [Hlo Hhi] Hrest ]; subst.
    destruct (IH (init + x) Hrest) as [IHlo IHhi].
    pose proof (lengthQ_cons x xs) as Hlen.
    unfold reduceSum in *. cbn [fold_left].
    split; rewrite Hlen; lra.
Qed.

Lemma reduceSum_ge (xs : list Q) : forall init : Q,
  Forall (fun y => 0 <= y) xs -> init <= reduceSum init xs.
Proof.
  induction xs as [ | y xs IH ]; intros init Hall.
  - unfold reduceSum. cbn [fold_left]. lra.
  - inversion Hall as [ | ? ? Hy Hrest ]; subst.
    unfold reduceSum in *. cbn [fold_left].
    apply Qle_trans with (y := init + y); [ lra | apply IH; exact Hrest ].
Qed.

Lemma reduceSum_member (x : Q) (xs : list Q) : forall init : Q,
  Forall (fun y => 0 <= y) xs ->
  In x xs ->
  init + x <= reduceSum init xs.
Proof.
  induction xs as [ | y xs IH ]; intros init Hall Hin; [ contradiction | ].
  inversion Hall as [ | ? ? Hy Hrest ]; subst.
  change (reduceSum init (y :: xs)) with (reduceSum (init + y) xs).
  destruct Hin as [ -> | Hin ].
  - apply reduceSum_ge. exact Hrest.
  - apply Qle_trans with (y := init + y + x); [ lra | ].
    apply IH; assumption.
Qed.

Lemma lengthQ_pos {A : Type} (xs : list A) : xs <> [] -> 0 < lengthQ xs.
Proof.
  destruct xs as [ | x xs ]; [ congruence | intros _ ].
  pose proof (lengthQ_cons x xs). pose proof (lengthQ_nonneg xs). lra.
Qed.

Lemma smoothedLevel_bounds (lo hi : Q) (h : list Q) :
  h <> [] ->
  Forall (fun x => lo <= x <= hi) h ->
  lo <= smoothedLevel h <= hi.
Proof.
  intros Hne Hall. unfold smoothedLevel.
  destruct (reduceSum_bounds lo hi h 0 Hall) as [Hlo Hhi].
  pose proof (lengthQ_pos h Hne) as Hpos.
  split.
  - apply Qle_shift_div_l; [ exact Hpos | lra ].
  - apply Qle_shift_div_r; [ exact Hpos | lra ].
Qed.

(** *** Windows of the history *)

Lemma Forall_lastn {A : Type} (P : A -> Prop) (n : nat) (l : list A) :
  Forall P l -> Forall P (lastn n l).
Proof.
  intro Hall. unfold lastn.
  rewrite <- (firstn_skipn (List.length l - n) l) in Hall.
  apply Forall_app in Hall. apply Hall.
Qed.

Lemma lastn_keeps_suffix {A : Type} (n : nat) (l1 l2 : list A) :
  (List.length l2 <= n)%nat ->
  exists l1', lastn n (l1 ++ l2) = l1' ++ l2.
Proof.
  intro Hlen. unfold lastn. rewrite length_app, skipn_app.
  exists (skipn (List.length l1 + List.length l2 - n) l1).
  replace (List.length l1 + List.length l2 - n - List.length l1)%nat
    with 0%nat by lia.
  reflexivity.
Qed.

Lemma lastn_of_suffix {A : Type} (n : nat) (l1 l2 : list A) :
  (n <= List.length l2)%nat ->
  lastn n (l1 ++ l2) = lastn n l2.
Proof.
  intro Hlen. unfold lastn. rewrite length_app, skipn_app.
  rewrite skipn_all2 by lia. cbn [app]. f_equal. lia.
Qed.

Lemma Forall_pushVolume (P : Q -> Prop) (x : Q) (h : list Q) :
  Forall P h -> P x -> Forall P (pushVolume x h).
Proof.
  intros Hall Hx. unfold pushVolume.
  assert (Hpushed : Forall P (h ++ [x])).
  { apply Forall_app. split; [ exact Hall | constructor; [ exact Hx | constructor ] ]. }
  destruct (Nat.ltb _ _); [ | exact Hpushed ].
  destruct (h ++ [x]) as [ | y rest ]; [ constructor | ].
  inversion Hpushed; assumption.
Qed.

Lemma pushVolume_nonempty (x : Q) (h : list Q) : pushVolume x h <> [].
Proof.
  unfold pushVolume.
  destruct (Nat.ltb VOLUME_HISTORY_SIZE (List.length (h ++ [x]))) eqn:Hfull.
  - apply Nat.ltb_lt in Hfull. unfold VOLUME_HISTORY_SIZE in Hfull.
    destruct (h ++ [x]) as [ | y [ | z rest ] ]; cbn in *; try lia.
    discriminate.
  - destruct h; discriminate.
Qed.

Lemma step_levels (P : Q -> Prop) (e : Event) (s : Hook) :
  (forall d, P (normalizedLevel d)) ->
  Forall P (volumeHistoryRef s) ->
  Forall P (volumeHistoryRef (step e s)).
Proof.
  intros Hlevel Hall. destruct e as [ id c now d | now ]; cbn -[analyzeAudio].
  - rewrite analyzeAudio_history. cbn.
    destruct (analyserRef s); [ | exact Hall ].
    apply Forall_pushVolume; [ exact Hall | apply Hlevel ].
  - unfold silenceTimeoutFired. destruct (_ <=? _)%Z; exact Hall.
Qed.

Lemma run_levels (P : Q -> Prop) (tr : list Event) : forall s : Hook,
  (forall d, P (normalizedLevel d)) ->
  Forall P (volumeHistoryRef s) ->
  Forall P (volumeHistoryRef (run s tr)).
Proof.
  induction tr as [ | e tr IH ]; intros s Hlevel Hall; [ exact Hall | ].
  change (run s (e :: tr)) with (run (step e s) tr).
  apply IH; [ exact Hlevel | apply step_levels; assumption ].
Qed.

Lemma run_analyser (tr : list Event) : forall s : Hook,
  analyserRef (run s tr) = analyserRef s.
Proof.
  induction tr as [ | e tr IH ]; intro s; [ reflexivity | ].
  change (run s (e :: tr)) with (run (step e s) tr).
  rewrite IH. apply step_analyser.
Qed.

Lemma pushedLevels_app (tr1 tr2 : list Event) :
  pushedLevels (tr1 ++ tr2) = pushedLevels tr1 ++ pushedLevels tr2.
Proof.
  induction tr1 as [ | [ id c now d | now ] tr1 IH ]; cbn;
    [ reflexivity | f_equal; exact IH | exact IH ].
Qed.

(** The window a tick averages, in terms of the samples pushed so far. *)
Lemma tick_window (s : Hook) (pre : list Event) (d : Snapshot) :
  isSome (analyserRef s) = true ->
  (List.length (volumeHistoryRef s) <= VOLUME_HISTORY_SIZE)%nat ->
  smoothedAfter d (run s pre) =
  smoothedLevel
    (lastn VOLUME_HISTORY_SIZE
       (volumeHistoryRef s ++ pushedLevels pre ++ [normalizedLevel d])).
Proof.
  intros Han Hlen. unfold smoothedAfter. f_equal.
  assert (Hrun : isSome (analyserRef (run s pre)) = true)
    by (rewrite run_analyser; exact Han).
  rewrite <- (step_history (Frame 0 false 0 d) (run s pre) Hrun).
  rewrite <- run_snoc, (run_history _ s Han Hlen), pushedLevels_app.
  reflexivity.
Qed.

(** X1.  Levels never leave the unit interval: if the stored samples lie in
    [0,1] (as on a fresh or stopped hook, where there are none), then after
    any callbacks they still do, and the smoothed level the next tick computes
    lies in [0,1] too. *)
Theorem levels_stay_in_unit_interval (s : Hook) (tr : list Event) :
  Forall unitLevel (volumeHistoryRef s) ->
  Forall unitLevel (volumeHistoryRef (run s tr))
  /\ forall d : Snapshot, unitLevel (smoothedAfter d (run s tr)).
Proof.
  intro Hall.
  assert (Hrun : Forall unitLevel (volumeHistoryRef (run s tr))).
  { apply run_levels; [ apply normalizedLevel_range | exact Hall ]. }
  split; [ exact Hrun | ].
  intro d. unfold smoothedAfter, unitLevel.
  apply smoothedLevel_bounds; [ apply pushVolume_nonempty | ].
  apply Forall_pushVolume; [ exact Hrun | apply normalizedLevel_range ].
Qed.

Lemma levels_stay_in_unit_interval_witness :
  Forall unitLevel (volumeHistoryRef sessionStart)
  /\ Forall unitLevel (volumeHistoryRef (run sessionStart risingFrames))
  /\ forall d : Snapshot, unitLevel (smoothedAfter d (run sessionStart risingFrames)).
Proof.
  split; [ constructor | ].
  apply (levels_stay_in_unit_interval sessionStart risingFrames).
  constructor.
Defined.

Lemma lengthQ_le {A : Type} (xs : list A) (n : nat) :
  (List.length xs <= n)%nat -> lengthQ xs <= inject_Z (Z.of_nat n).
Proof.
  intro H. unfold lengthQ. rewrite <- Zle_Qle. lia.
Qed.

(** A window of at most ten non-negative samples, one of them above ten
    times the threshold, averages above the threshold. *)
Lemma strong_sample_above (x : Q) (w : list Q) :
  In x w ->
  Forall (fun y => 0 <= y) w ->
  (List.length w <= VOLUME_HISTORY_SIZE)%nat ->
  10 * SILENCE_THRESHOLD < x ->
  aboveThreshold (smoothedLevel w) = true.
Proof.
  intros Hin Hall Hlen Hx. apply aboveThreshold_lt. unfold smoothedLevel.
  assert (Hne : w <> []) by (destruct w; [ contradiction | discriminate ]).
  pose proof (lengthQ_pos w Hne) as Hpos.
  pose proof (lengthQ_le w _ Hlen) as Hten.
  pose proof (reduceSum_member x w 0 Hall Hin) as Hsum.
  unfold VOLUME_HISTORY_SIZE in Hten.
  change (inject_Z (Z.of_nat 10)) with 10 in Hten.
  unfold SILENCE_THRESHOLD in *.
  apply Qlt_shift_div_l; [ exact Hpos | lra ].
Qed.

(** A non-empty window of samples at or below the threshold averages at or
    below the threshold. *)
Lemma quiet_window_below (w : list Q) :
  w <> [] ->
  Forall (fun y => 0 <= y <= SILENCE_THRESHOLD) w ->
  aboveThreshold (smoothedLevel w) = false.
Proof.
  intros Hne Hall. apply aboveThreshold_le.
  apply (smoothedLevel_bounds 0 SILENCE_THRESHOLD w Hne Hall).
Qed.

(** X2.  One strong sample carries ten ticks.  If a tick's raw sample is
    above 0.05 (ten times the threshold), that tick and each of the next nine
    ticks find the smoothed level above the threshold, whatever those ticks
    sample. *)
Theorem strong_sample_holds_ten_ticks
    (s : Hook) (id : nat) (c : bool) (now : Z) (d : Snapshot)
    (tr : list Event) (id' : nat) (c' : bool) (now' : Z) (d' : Snapshot) :
  isSome (analyserRef s) = true ->
  (List.length (volumeHistoryRef s) <= 10)%nat ->
  Forall (fun y => 0 <= y) (volumeHistoryRef s) ->
  0.05 < normalizedLevel d ->
  (List.length (pushedLevels tr) <= 8)%nat ->
  tickAbove s (Frame id c now d) = true
  /\ tickAbove (run s (Frame id c now d :: tr)) (Frame id' c' now' d') = true.
Proof.
  intros Han Hlen Hall Hstrong Hfew.
  assert (Hwin : forall (pre : list Event) (dn : Snapshot),
            (List.length (pushedLevels pre ++ [normalizedLevel dn]) <= 10)%nat ->
            In (normalizedLevel d) (pushedLevels pre ++ [normalizedLevel dn]) ->
            tickAbove (run s pre) (Frame 0 false 0 dn) = true).
  { intros pre dn Hshort Hin. cbn [tickAbove].
    rewrite run_analyser, Han, (tick_window s pre dn Han Hlen). cbn [andb].
    destruct (lastn_keeps_suffix VOLUME_HISTORY_SIZE (volumeHistoryRef s)
                (pushedLevels pre ++ [normalizedLevel dn]) Hshort)
      as [kept Hkept].
    apply (strong_sample_above (normalizedLevel d)).
    - rewrite Hkept. apply in_or_app. right. exact Hin.
    - apply Forall_lastn, Forall_app. split; [ exact Hall | ].
      apply Forall_app. split.
      + clear. induction pre as [ | [ ? ? ? dp | ? ] pre IH ]; cbn;
          [ constructor | constructor; [ apply normalizedLevel_range | exact IH ]
          | exact IH ].
      + constructor; [ apply normalizedLevel_range | constructor ].
    - rewrite lastn_length. unfold VOLUME_HISTORY_SIZE. lia.
    - unfold SILENCE_THRESHOLD. lra. }
  split.
  - apply (Hwin [] d); cbn; [ lia | left; reflexivity ].
  - apply (Hwin (Frame id c now d :: tr) d').
    + cbn [pushedLevels]. rewrite length_app. cbn. lia.
    + cbn [pushedLevels]. left. reflexivity.
Qed.

Lemma strong_sample_holds_ten_ticks_witness :
  isSome (analyserRef sessionStart) = true
  /\ (List.length (volumeHistoryRef sessionStart) <= 10)%nat
  /\ Forall (fun y => 0 <= y) (volumeHistoryRef sessionStart)
  /\ 0.05 < normalizedLevel loudBuffer
  /\ (List.length (pushedLevels (firstn 8 (tl loudThenSilence))) <= 8)%nat
  /\ tickAbove sessionStart (Frame 4 false 0 loudBuffer) = true
  /\ tickAbove
       (run sessionStart
          (Frame 4 false 0 loudBuffer :: firstn 8 (tl loudThenSilence)))
       (Frame 7 false 200 silentBuffer) = true.
Proof.
  split; [ reflexivity | split; [ cbn; lia | split; [ constructor | ] ] ].
  split; [ vm_compute; reflexivity | split; [ cbn; lia | ] ].
  apply (strong_sample_holds_ten_ticks sessionStart 4 false 0 loudBuffer
           (firstn 8 (tl loudThenSilence)) 7 false 200 silentBuffer).
  - reflexivity.
  - cbn. lia.
  - constructor.
  - vm_compute. reflexivity.
  - cbn. lia.
Defined.

(** X3.  Ten quiet samples are enough.  Once the last ten ticks, the current
    one included, have each sampled a raw level at or below the threshold, the
    smoothed level is at or below the threshold, whatever was stored before. *)
Theorem ten_quiet_samples_drop_below
    (s : Hook) (tr : list Event) (id : nat) (c : bool) (now : Z)
    (d : Snapshot) :
  isSome (analyserRef s) = true ->
  (List.length (volumeHistoryRef s) <= 10)%nat ->
  forallb quietSample (tr ++ [Frame id c now d]) = true ->
  (9 <= List.length (pushedLevels tr))%nat ->
  tickAbove (run s tr) (Frame id c now d) = false.
Proof.
  intros Han Hlen Hquiet Hmany. cbn [tickAbove].
  rewrite run_analyser, Han, (tick_window s tr d Han Hlen). cbn [andb].
  rewrite lastn_of_suffix
    by (rewrite length_app; cbn; unfold VOLUME_HISTORY_SIZE; lia).
  apply quiet_window_below.
  - intro Hnil. apply (f_equal (@List.length Q)) in Hnil.
    rewrite lastn_length, length_app in Hnil.
    unfold VOLUME_HISTORY_SIZE in Hnil. cbn in Hnil. lia.
  - apply Forall_lastn.
    change [normalizedLevel d] with (pushedLevels [Frame id c now d]).
    rewrite <- pushedLevels_app.
    revert Hquiet. generalize (tr ++ [Frame id c now d]). clear.
    intro l. induction l as [ | [ ? ? ? dp | ? ] l IH ]; cbn; intro Hq.
    + constructor.
    + apply andb_prop in Hq as [Hd Hl]. constructor; [ | exact (IH Hl) ].
      apply negb_true_iff, aboveThreshold_le in Hd.
      split; [ apply normalizedLevel_range | exact Hd ].
    + exact (IH Hq).
Qed.

Lemma ten_quiet_samples_drop_below_witness :
  isSome (analyserRef sessionStart) = true
  /\ (List.length (volumeHistoryRef sessionStart) <= 10)%nat
  /\ forallb quietSample
       (firstn 9 (tl loudThenSilence) ++ [Frame 9 true 160 silentBuffer])
     = true
  /\ (9 <= List.length (pushedLevels (firstn 9 (tl loudThenSilence))))%nat
  /\ tickAbove (run sessionStart (firstn 9 (tl loudThenSilence)))
       (Frame 9 true 160 silentBuffer) = false.
Proof.
  split; [ reflexivity | split; [ cbn; lia | ] ].
  split; [ vm_compute; reflexivity | split; [ cbn; lia | ] ].
  apply (ten_quiet_samples_drop_below sessionStart
           (firstn 9 (tl loudThenSilence)) 9 true 160 silentBuffer).
  - reflexivity.
  - cbn. lia.
  - vm_compute. reflexivity.
  - cbn. lia.
Defined.

(** *** Teardown *)

Lemma removeHandle_incl (h : nat) (hs : list nat) :
  incl (removeHandle h hs) hs.
Proof.
  unfold removeHandle. intros x Hx. apply filter_In in Hx. apply Hx.
Qed.

Lemma idle_callbacks (tr : list Event) : forall (s : Hook) (frames : list nat),
  analyserRef s = None ->
  isSpeaking s = false ->
  silenceTimeoutRef s = None ->
  incl frames (pendingFrames (platform s)) ->
  exists frames',
    run (withFrames frames s) tr = withFrames frames' s
    /\ incl frames' (pendingFrames (platform s)).
Proof.
  induction tr as [ | e tr IH ]; intros s frames Han Hsp Hti Hincl.
  - exists frames. split; [ reflexivity | exact Hincl ].
  - change (run (withFrames frames s) (e :: tr))
      with (run (step e (withFrames frames s)) tr).
    assert (Hstep : exists frames1,
               step e (withFrames frames s) = withFrames frames1 s
               /\ incl frames1 (pendingFrames (platform s))).
    { destruct e as [ id c now d | now ].
      - exists (removeHandle id frames). split.
        + destruct s as [ li sp hp al er ms ac an af st vh ls p ].
          cbn in Han. subst an. reflexivity.
        + intros x Hx. apply Hincl. exact (removeHandle_incl id frames x Hx).
      - exists frames. split; [ | exact Hincl ].
        destruct s as [ li sp hp al er ms ac an af st vh ls p ].
        cbn in Hsp, Hti. subst sp st.
        cbn. unfold silenceTimeoutFired. cbn.
        destruct (_ <=? _)%Z; reflexivity. }
    destruct Hstep as (frames1 & -> & Hincl1).
    apply IH; assumption.
Qed.

Lemma withFrames_same (s : Hook) :
  withFrames (pendingFrames (platform s)) s = s.
Proof.
  destruct s as [ li sp hp al er ms ac an af st vh ls [ st' ct fr nh ] ].
  reflexivity.
Qed.

Lemma stopListening_idle (s : Hook) :
  analyserRef (stopListening s) = None
  /\ isSpeaking (stopListening s) = false
  /\ silenceTimeoutRef (stopListening s) = None.
Proof.
  destruct s as [ li sp hp al er ms ac an af st vh ls p ].
  unfold stopListening, clearSilenceTimeout.
  destruct af, st, ms, ac; cbv -[removeHandle]; repeat split.
Qed.

(** X4.  Callbacks that arrive after [stopListening] change nothing.
    Whatever frames or timeout callbacks still run on a stopped hook, every
    piece of state and every ref stays as [stopListening] left it, no stream
    or context is touched and no new animation frame is requested: the only
    difference is that pending frame requests may have been used up. *)
Theorem callbacks_after_stop_do_nothing (s : Hook) (tr : list Event) :
  exists frames,
    run (stopListening s) tr = withFrames frames (stopListening s)
    /\ incl frames (pendingFrames (platform (stopListening s))).
Proof.
  destruct (stopListening_idle s) as (Han & Hsp & Hti).
  destruct (idle_callbacks tr (stopListening s)
              (pendingFrames (platform (stopListening s)))
              Han Hsp Hti (incl_refl _)) as (frames & Hrun & Hincl).
  rewrite withFrames_same in Hrun.
  exists frames. split; assumption.
Qed.

(** X5.  Every tick on a live analyser requests exactly one new animation
    frame and stores its id, and a [stopListening] that follows cancels that
    request. *)
Theorem stop_cancels_requested_frame
    (c : bool) (now : Z) (d : Snapshot) (s : Hook) :
  isSome (analyserRef s) = true ->
  let s' := analyzeAudio c now d s in
  let id := nextHandle (platform s) in
  animationFrameRef s' = Some id
  /\ pendingFrames (platform s') = id :: pendingFrames (platform s)
  /\ ~ In id (pendingFrames (platform (stopListening s'))).
Proof.
  intros Han s' id.
  assert (Hreq : animationFrameRef s' = Some id
                 /\ pendingFrames (platform s') = id :: pendingFrames (platform s)).
  { unfold s', id, analyzeAudio, scheduleNextFrame, clearSilenceTimeout.
    destruct (analyserRef s); [ | discriminate ].
    cbn. tick_cases; split; reflexivity. }
  destruct Hreq as [Href Hpending].
  split; [ exact Href | split; [ exact Hpending | ] ].
  assert (Hstop : forall u, animationFrameRef u = Some id ->
            pendingFrames (platform (stopListening u))
            = removeHandle id (pendingFrames (platform u))).
  { intros u Hu.
    destruct u as [ li sp hp al er ms ac an af st vh ls p ].
    cbn in Hu. subst af. unfold stopListening, clearSilenceTimeout.
    destruct st, ms, ac; reflexivity. }
  rewrite (Hstop s' Href). unfold removeHandle. intro Hin.
  apply filter_In in Hin as [_ Hneq].
  rewrite Nat.eqb_refl in Hneq. discriminate.
Qed.

Lemma stop_cancels_requested_frame_witness :
  isSome (analyserRef sessionStart) = true
  /\ (let s' := analyzeAudio false 0 loudBuffer sessionStart in
      let id := nextHandle (platform sessionStart) in
      animationFrameRef s' = Some id
      /\ pendingFrames (platform s') = id :: pendingFrames (platform sessionStart)
      /\ ~ In id (pendingFrames (platform (stopListening s')))).
Proof.
  split; [ reflexivity | ].
  apply (stop_cancels_requested_frame false 0 loudBuffer sessionStart).
  reflexivity.
Defined.

(** *** Starting *)

Lemma openSession_fields (s : Hook) :
  let s' := openSession s in
  isListening s' = true
  /\ hasPermission s' = Some true
  /\ error s' = error s
  /\ isSpeaking s' = isSpeaking s
  /\ isSome (analyserRef s') = true
  /\ mediaStreamRef s' = Some (nextHandle (platform s))
  /\ In (nextHandle (platform s)) (liveStreams (platform s'))
  /\ volumeHistoryRef s' = volumeHistoryRef s
  /\ silenceTimeoutRef s' = silenceTimeoutRef s
  /\ lastSpeakingTimeRef s' = lastSpeakingTimeRef s.
Proof.
  destruct s as [ li sp hp al er ms ac an af st vh ls [ sts cts frs nh ] ].
  cbv -[In]. repeat split. left. reflexivity.
Qed.

Lemma analyzeAudio_untouched (c : bool) (now : Z) (d : Snapshot) (s : Hook) :
  let s' := analyzeAudio c now d s in
  isListening s' = isListening s
  /\ hasPermission s' = hasPermission s
  /\ error s' = error s
  /\ mediaStreamRef s' = mediaStreamRef s
  /\ audioContextRef s' = audioContextRef s
  /\ liveStreams (platform s') = liveStreams (platform s)
  /\ openContexts (platform s') = openContexts (platform s).
Proof.
  unfold analyzeAudio, scheduleNextFrame, clearSilenceTimeout.
  destruct (analyserRef s); [ | repeat split ].
  cbn. tick_cases; repeat split.
Qed.

(** X6.  A granted [startListening] reports listening and permission, clears
    any earlier error message, stores a fresh stream that is live, and has
    already run its first tick: the exposed level is that tick's raw sample
    and the sample has been pushed onto whatever history was there (the call
    itself does not empty the history). *)
Theorem granted_start (c : bool) (now : Z) (d : Snapshot) (s : Hook) :
  let s' := startListening c (Granted now d) s in
  isListening s' = true
  /\ hasPermission s' = Some true
  /\ error s' = None
  /\ isSome (analyserRef s') = true
  /\ mediaStreamRef s' = Some (nextHandle (platform s))
  /\ In (nextHandle (platform s)) (liveStreams (platform s'))
  /\ audioLevel s' = normalizedLevel d
  /\ volumeHistoryRef s' = pushVolume (normalizedLevel d) (volumeHistoryRef s).
Proof.
  intro s'. unfold s', startListening.
  set (s1 := setError None s).
  destruct (openSession_fields s1)
    as (Hli & Hhp & Her & _ & Han & Hms & Hin & Hvh & _ & _).
  destruct (analyzeAudio_untouched c now d (openSession s1))
    as (Hli' & Hhp' & Her' & Hms' & _ & Hls' & _).
  rewrite Hli', Hhp', Her', Hms', Hls', analyzeAudio_analyser,
    analyzeAudio_history, (analyzeAudio_level c now d _ Han).
  destruct (analyserRef (openSession s1)); [ | discriminate ].
  rewrite Hvh. repeat split; assumption.
Qed.

Lemma smoothedLevel_single (x : Q) : smoothedLevel [x] == x.
Proof.
  unfold smoothedLevel, reduceSum, lengthQ. cbn. field.
Qed.

Lemma aboveThreshold_single (x : Q) :
  aboveThreshold (smoothedLevel [x]) = aboveThreshold x.
Proof.
  unfold aboveThreshold, Qgtb. rewrite smoothedLevel_single. reflexivity.
Qed.

(** What a direct call of [analyzeAudio] does to the speaking state. *)
Lemma tick_effect (c : bool) (now : Z) (d : Snapshot) (s : Hook) :
  let above := isSome (analyserRef s) && aboveThreshold (smoothedAfter d s) in
  silenceTimeoutRef (analyzeAudio c now d s) =
    (if above then None
     else if isSome (analyserRef s) && c && negb (isSome (silenceTimeoutRef s))
          then Some now
          else silenceTimeoutRef s)
  /\ lastSpeakingTimeRef (analyzeAudio c now d s) =
    (if above && negb c then now else lastSpeakingTimeRef s)
  /\ isSpeaking (analyzeAudio c now d s) =
    (if above && negb c then true else isSpeaking s).
Proof.
  unfold smoothedAfter, analyzeAudio, scheduleNextFrame, clearSilenceTimeout.
  cbn [analyserRef volumeHistoryRef setVolumeHistoryRef setAudioLevel
       silenceTimeoutRef].
  destruct (analyserRef s); cbn [isSome andb]; [ | repeat split ].
  destruct (aboveThreshold _), c, (silenceTimeoutRef s) eqn:Hpending;
    cbn; repeat split; congruence.
Qed.

(** X7.  A restart starts from scratch.  After [stopListening], a granted
    [startListening] whose callback reads [isSpeaking = false] decides on its
    first raw sample alone: the history holds just that sample, the hook
    reports speaking exactly when the sample is above the threshold (storing
    the onset time then), and no silence timeout is pending. *)
Theorem restart_decides_on_first_sample
    (now : Z) (d : Snapshot) (s : Hook) :
  let s' := startListening false (Granted now d) (stopListening s) in
  volumeHistoryRef s' = [normalizedLevel d]
  /\ isSpeaking s' = aboveThreshold (normalizedLevel d)
  /\ (isSpeaking s' = true -> lastSpeakingTimeRef s' = now)
  /\ silenceTimeoutRef s' = None.
Proof.
  intro s'. unfold s', startListening.
  set (s1 := setError None (stopListening s)).
  assert (Hidle : volumeHistoryRef s1 = [] /\ isSpeaking s1 = false
                  /\ silenceTimeoutRef s1 = None).
  { unfold s1. destruct s as [ li sp hp al er ms ac an af st vh ls p ].
    unfold stopListening, clearSilenceTimeout.
    destruct af, st, ms, ac; cbv -[removeHandle]; repeat split. }
  destruct Hidle as (Hvh1 & Hsp1 & Hti1).
  destruct (openSession_fields s1)
    as (_ & _ & _ & Hsp & Han & _ & _ & Hvh & Hti & _).
  set (s2 := openSession s1) in *.
  rewrite Hvh1 in Hvh. rewrite Hsp1 in Hsp. rewrite Hti1 in Hti.
  destruct (tick_effect false now d s2) as (Htimer & Honset & Hflag).
  rewrite analyzeAudio_history, Hflag, Honset, Htimer, Hti, Hsp, Han.
  unfold smoothedAfter. rewrite Hvh.
  destruct (analyserRef s2); [ | discriminate ].
  change (pushVolume (normalizedLevel d) []) with [normalizedLevel d].
  rewrite aboveThreshold_single. cbn [negb andb isSome].
  split; [ reflexivity | ].
  destruct (aboveThreshold (normalizedLevel d)); repeat split;
    try reflexivity; discriminate.
Qed.

(** *** Reporting silence *)

Lemma quiet_frames_keep_timer (tr : list Event) : forall (s : Hook) (armed : Z),
  silenceTimeoutRef s = Some armed ->
  forallb isFrame tr = true ->
  allQuiet s tr = true ->
  silenceTimeoutRef (run s tr) = Some armed
  /\ lastSpeakingTimeRef (run s tr) = lastSpeakingTimeRef s
  /\ isSpeaking (run s tr) = isSpeaking s.
Proof.
  induction tr as [ | e tr IH ]; intros s armed Harmed Hframes Hquiet.
  - repeat split. exact Harmed.
  - cbn [forallb allQuiet] in *.
    apply andb_prop in Hframes as [He Hframes].
    apply andb_prop in Hquiet as [Hq Hquiet].
    apply negb_true_iff in Hq.
    change (run s (e :: tr)) with (run (step e s) tr).
    destruct e as [ id c now d | now ]; [ | discriminate ].
    pose proof (frame_effect id c now d s) as Heffect.
    cbv zeta in Heffect. destruct Heffect as (Htimer & Honset & Hflag).
    remember (step (Frame id c now d) s) as s1 eqn:Hs1.
    rewrite Hq in Htimer, Honset, Hflag. cbn [andb] in Htimer, Honset, Hflag.
    rewrite Harmed in Htimer. cbn [isSome negb] in Htimer.
    rewrite andb_false_r in Htimer.
    destruct (IH s1 armed Htimer Hframes Hquiet) as (IHt & IHo & IHf).
    rewrite IHt, IHo, IHf. repeat split; assumption.
Qed.

(** X8.  Silence is reported when the callback sees the flag.  Take a tick
    that reads [isSpeaking = true] with no timeout pending and finds the
    smoothed level at or below the threshold, followed by any number of ticks
    that also find it so.  Then the timeout armed by the first tick is still
    pending, it may run at any time from 800 ms after that tick, and when it
    runs the hook stops reporting speech. *)
Theorem silence_is_reported
    (s : Hook) (id : nat) (now : Z) (d : Snapshot) (tr : list Event) (t : Z) :
  isSome (analyserRef s) = true ->
  silenceTimeoutRef s = None ->
  (lastSpeakingTimeRef s <= now)%Z ->
  forallb isFrame tr = true ->
  allQuiet s (Frame id true now d :: tr) = true ->
  (now + 800 <= t)%Z ->
  let s' := run s (Frame id true now d :: tr) in
  silenceTimeoutRef s' = Some now
  /\ enabled (SilenceTimer t) s' = true
  /\ isSpeaking (step (SilenceTimer t) s') = false.
Proof.
  intros Han Hidle Honset Hframes Hquiet Hlate s'.
  cbn [allQuiet] in Hquiet. apply andb_prop in Hquiet as [Hq Hquiet].
  apply negb_true_iff in Hq.
  pose proof (frame_effect id true now d s) as Heffect.
  cbv zeta in Heffect. destruct Heffect as (Htimer & Honset' & _).
  assert (Hs' : s' = run (step (Frame id true now d) s) tr) by reflexivity.
  remember (step (Frame id true now d) s) as s1 eqn:Hs1.
  rewrite Hq in Htimer, Honset'. rewrite Han, Hidle in Htimer.
  cbn [andb negb isSome] in Htimer, Honset'.
  destruct (quiet_frames_keep_timer tr s1 now Htimer Hframes Hquiet)
    as (Hkept & Hsame & _).
  rewrite <- Hs' in Hkept, Hsame. rewrite Honset' in Hsame.
  clearbody s'.
  split; [ exact Hkept | split ].
  - cbn [enabled]. rewrite Hkept. apply Z.leb_le.
    unfold SILENCE_DELAY. lia.
  - destruct (timer_effect t s') as (_ & _ & Hflag). rewrite Hflag.
    replace (MIN_SPEAKING_DURATION <=? t - lastSpeakingTimeRef s')%Z
      with true; [ reflexivity | ].
    symmetry. apply Z.leb_le. unfold MIN_SPEAKING_DURATION. lia.
Qed.

Lemma silence_is_reported_witness :
  let s := run sessionStart (firstn 10 loudThenSilence) in
  isSome (analyserRef s) = true
  /\ silenceTimeoutRef s = None
  /\ (lastSpeakingTimeRef s <= 160)%Z
  /\ forallb isFrame [Frame 0 true 176 silentBuffer] = true
  /\ allQuiet s [Frame 0 true 160 silentBuffer; Frame 0 true 176 silentBuffer]
     = true
  /\ (160 + 800 <= 960)%Z
  /\ (let s' := run s [Frame 0 true 160 silentBuffer;
                       Frame 0 true 176 silentBuffer] in
      silenceTimeoutRef s' = Some 160%Z
      /\ enabled (SilenceTimer 960) s' = true
      /\ isSpeaking (step (SilenceTimer 960) s') = false).
Proof.
  intro s.
  split; [ reflexivity | split; [ vm_compute; reflexivity | ] ].
  split; [ vm_compute; discriminate | split; [ reflexivity | ] ].
  split; [ vm_compute; reflexivity | split; [ lia | ] ].
  apply (silence_is_reported s 0 160 silentBuffer
           [Frame 0 true 176 silentBuffer] 960).
  - reflexivity.
  - vm_compute. reflexivity.
  - vm_compute. discriminate.
  - reflexivity.
  - vm_compute. reflexivity.
  - lia.
Defined.

(** X9.  A loop that keeps reading [isSpeaking = false] never reports
    silence.  If every callback of a run reads [isSpeaking = false] (the
    callback [startListening] launches from a hook that is not speaking
    reschedules itself, so it goes on reading that value) and no timeout is
    pending at the start, then no timeout is ever armed and a speaking flag
    that is set stays set. *)
Theorem flag_stays_set_when_callbacks_read_false
    (tr : list Event) : forall (clock : Z) (s : Hook),
  silenceTimeoutRef s = None ->
  forallb readsNotSpeaking tr = true ->
  admissible clock s tr = true ->
  isSpeaking s = true ->
  isSpeaking (run s tr) = true /\ silenceTimeoutRef (run s tr) = None.
Proof.
  induction tr as [ | e tr IH ]; intros clock s Hidle Hreads Hadm Hon.
  - split; assumption.
  - cbn [forallb admissible] in *.
    apply andb_prop in Hreads as [He Hreads].
    apply andb_prop in Hadm as [Hadm Hrest].
    apply andb_prop in Hadm as [_ Hen].
    change (run s (e :: tr)) with (run (step e s) tr).
    destruct e as [ id c now d | now ].
    + cbn in He. apply negb_true_iff in He. subst c.
      destruct (frame_effect id false now d s) as (Htimer & _ & Hflag).
      apply (IH (clockOf (Frame id false now d))); try assumption.
      * rewrite Htimer, Hidle, andb_false_r.
        destruct (tickAbove _ _); reflexivity.
      * rewrite Hflag, Hon. destruct (tickAbove s _); reflexivity.
    + cbn [enabled] in Hen. rewrite Hidle in Hen. discriminate.
Qed.

Lemma flag_stays_set_when_callbacks_read_false_witness :
  let s := run sessionStart [Frame 4 false 0 loudBuffer] in
  let tr := map (fun k => Frame 0 false (16 * Z.of_nat k) silentBuffer)
              (seq 1 12) in
  silenceTimeoutRef s = None
  /\ forallb readsNotSpeaking tr = true
  /\ admissible 0 s tr = true
  /\ isSpeaking s = true
  /\ isSpeaking (run s tr) = true
  /\ silenceTimeoutRef (run s tr) = None.
Proof.
  intros s tr.
  split; [ reflexivity | split; [ reflexivity | ] ].
  split; [ vm_compute; reflexivity | split; [ vm_compute; reflexivity | ] ].
  apply (flag_stays_set_when_callbacks_read_false tr 0 s).
  - reflexivity.
  - reflexivity.
  - vm_compute. reflexivity.
  - vm_compute. reflexivity.
Defined.

(** *** Frames and sessions, for the recorder *)

Lemma analyzeAudio_frames (c : bool) (now : Z) (d : Snapshot) (s : Hook) :
  isSome (analyserRef s) = true ->
  animationFrameRef (analyzeAudio c now d s) = Some (nextHandle (platform s))
  /\ pendingFrames (platform (analyzeAudio c now d s))
     = nextHandle (platform s) :: pendingFrames (platform s).
Proof.
  unfold analyzeAudio, scheduleNextFrame, clearSilenceTimeout.
  destruct (analyserRef s); [ intros _ | discriminate ].
  cbn. tick_cases; split; reflexivity.
Qed.

Lemma removeHandle_single (h : nat) : removeHandle h [h] = [].
Proof.
  unfold removeHandle. cbn. rewrite Nat.eqb_refl. reflexivity.
Qed.

End MicMore.

(** ** More on the renderer *)

Module WaveformMore.

Import Waveform.

(** *** The local volume test *)

Lemma sumSquares_bounds (lo hi : Q) (dataArray : list byte) : forall acc : Q,
  Forall (fun b => lo <= sample b * sample b <= hi) dataArray ->
  acc + lo * lengthQ dataArray
  <= fold_left (fun sum b => sum + sample b * sample b) dataArray acc
  /\ fold_left (fun sum b => sum + sample b * sample b) dataArray acc
     <= acc + hi * lengthQ dataArray.
Proof.
  induction dataArray as [ | b rest IH ]; intros acc Hall.
  - unfold lengthQ. cbn [fold_left List.length Z.of_nat].
    change (inject_Z 0) with 0. split; lra.
  - inversion Hall as [ | ? ? [Hlo Hhi] Hrest ]; subst.
    destruct (IH (acc + sample b * sample b) Hrest) as [IHlo IHhi].
    pose proof (MicFacts.lengthQ_cons b rest) as Hlen.
    cbn [fold_left]. split; rewrite Hlen; lra.
Qed.

Lemma meanSquare_bounds (lo hi : Q) (dataArray : list byte) :
  dataArray <> [] ->
  Forall (fun b => lo <= sample b * sample b <= hi) dataArray ->
  lo <= sumSquares dataArray / lengthQ dataArray <= hi.
Proof.
  intros Hne Hall. unfold sumSquares.
  destruct (sumSquares_bounds lo hi dataArray 0 Hall) as [Hlo Hhi].
  pose proof (MicMore.lengthQ_pos dataArray Hne) as Hpos.
  split.
  - apply Qle_shift_div_l; [ exact Hpos | lra ].
  - apply Qle_shift_div_r; [ exact Hpos | lra ].
Qed.

Lemma sample_square_unit (b : byte) : 0 <= sample b * sample b <= 1.
Proof.
  destruct b; split; vm_compute; discriminate.
Qed.

Lemma sample_square_near (b : byte) :
  (restDistance b <=? 1)%Z = true ->
  0 <= sample b * sample b <= 1 # 16384.
Proof.
  destruct b; intro Hnear; try discriminate Hnear;
    split; vm_compute; discriminate.
Qed.

Lemma sample_square_far (b : byte) :
  (2 <=? restDistance b)%Z = true ->
  4 # 16384 <= sample b * sample b <= 1.
Proof.
  destruct b; intro Hfar; try discriminate Hfar;
    split; vm_compute; discriminate.
Qed.

Lemma Forall_of_forallb {A : Type} (f : A -> bool) (P : A -> Prop)
    (l : list A) :
  (forall x, f x = true -> P x) -> forallb f l = true -> Forall P l.
Proof.
  intros Hf Hall. apply Forall_forall. intros x Hx.
  apply Hf. rewrite forallb_forall in Hall. apply Hall, Hx.
Qed.

Lemma Qgtb_lt (x y : Q) : Qgtb x y = true <-> y < x.
Proof.
  unfold Qgtb. rewrite negb_true_iff. split.
  - intro H. apply Qnot_le_lt. intro Hle.
    apply Qle_bool_iff in Hle. congruence.
  - intro H. destruct (Qle_bool x y) eqn:Hb; [ | reflexivity ].
    apply Qle_bool_iff in Hb. apply Qlt_not_le in H. contradiction.
Qed.

Lemma Qgtb_le (x y : Q) : Qgtb x y = false <-> x <= y.
Proof.
  unfold Qgtb. rewrite negb_false_iff. apply Qle_bool_iff.
Qed.

(** X10.  The mean square the renderer takes the root of lies between 0 and
    1 for every non-empty buffer (so the RMS does too), and on the empty
    buffer the local test is false. *)
Theorem mean_square_in_unit_interval (dataArray : list byte) :
  (dataArray <> [] ->
   0 <= sumSquares dataArray / lengthQ dataArray <= 1)
  /\ volumeAboveThreshold [] = false.
Proof.
  split; [ | reflexivity ].
  intro Hne. apply meanSquare_bounds; [ exact Hne | ].
  apply Forall_forall. intros b _. apply sample_square_unit.
Qed.

Lemma mean_square_in_unit_interval_witness :
  [x00; x80; xff] <> []
  /\ 0 <= sumSquares [x00; x80; xff] / lengthQ [x00; x80; xff] <= 1.
Proof.
  split; [ discriminate | ].
  apply (proj1 (mean_square_in_unit_interval [x00; x80; xff])).
  discriminate.
Defined.

(** X11.  What the local test hears.  A buffer whose samples all sit within
    one step of the rest value 128 never passes the RMS > 0.01 test, whatever
    its length; a non-empty buffer whose samples are all at least two steps
    away from 128 always passes it. *)
Theorem local_test_quantisation (dataArray : list byte) :
  (forallb (fun b => (restDistance b <=? 1)%Z) dataArray = true ->
   volumeAboveThreshold dataArray = false)
  /\ (dataArray <> [] ->
      forallb (fun b => (2 <=? restDistance b)%Z) dataArray = true ->
      volumeAboveThreshold dataArray = true).
Proof.
  unfold volumeAboveThreshold, silenceThreshold. split.
  - intro Hnear. apply Qgtb_le.
    destruct dataArray as [ | b rest ]; [ vm_compute; discriminate | ].
    assert (Hne : b :: rest <> []) by discriminate.
    pose proof (Forall_of_forallb _ _ (b :: rest) sample_square_near Hnear)
      as Hall.
    destruct (meanSquare_bounds _ _ _ Hne Hall) as [_ Hhi]. lra.
  - intros Hne Hfar. apply Qgtb_lt.
    pose proof (Forall_of_forallb _ _ dataArray sample_square_far Hfar)
      as Hall.
    destruct (meanSquare_bounds _ _ _ Hne Hall) as [Hlo _]. lra.
Qed.

Lemma local_test_quantisation_witness :
  forallb (fun b => (restDistance b <=? 1)%Z) [x7f; x80; x81] = true
  /\ volumeAboveThreshold [x7f; x80; x81] = false
  /\ [x7e; x82] <> []
  /\ forallb (fun b => (2 <=? restDistance b)%Z) [x7e; x82] = true
  /\ volumeAboveThreshold [x7e; x82] = true.
Proof.
  split; [ reflexivity | split ].
  - apply (proj1 (local_test_quantisation [x7f; x80; x81])). reflexivity.
  - split; [ discriminate | split; [ reflexivity | ] ].
    apply (proj2 (local_test_quantisation [x7e; x82]));
      [ discriminate | reflexivity ].
Defined.

(** *** The plotted waveform *)

Lemma plotFrom_length (slice h : Q) (dataArray : list byte) : forall x : Q,
  List.length (plotFrom slice h x dataArray) = List.length dataArray.
Proof.
  induction dataArray as [ | b rest IH ]; intro x; cbn;
    [ reflexivity | f_equal; apply IH ].
Qed.

Lemma plotFrom_range (slice h : Q) (dataArray : list byte) : forall x : Q,
  0 <= slice ->
  0 < h ->
  forall p : Q * Q,
  In p (plotFrom slice h x dataArray) ->
  x <= fst p
  /\ fst p <= x + slice * (lengthQ dataArray - 1)
  /\ 0 <= snd p < h.
Proof.
  induction dataArray as [ | b rest IH ]; intros x Hslice Hh p Hin;
    [ contradiction | ].
  pose proof (MicFacts.lengthQ_cons b rest) as Hlen.
  pose proof (MicFacts.lengthQ_nonneg rest) as Hn.
  cbn [plotFrom] in Hin. destruct Hin as [ <- | Hin ].
  - cbn [fst snd]. pose proof (MicFacts.byteVal_range b) as [Hb0 Hb1].
    split; [ lra | split ].
    + rewrite Hlen. nra.
    + assert (Hv : byteVal b / 128 * h / 2 == byteVal b * h * (1 # 256))
        by field.
      rewrite Hv. split; nra.
  - destruct (IH (x + slice) Hslice Hh p Hin) as (Hlo & Hhi & Hy).
    split; [ lra | split; [ | exact Hy ] ].
    rewrite Hlen. nra.
Qed.

(** X12.  The plotted waveform stays inside the canvas.  On a canvas of
    positive width and height, the first listing plots one point per sample,
    each with [0 <= x < width] and [0 <= y < height]. *)
Theorem plot_stays_inside_canvas
    (dataArray : list byte) (canvasSize : CanvasSize) :
  0 < width canvasSize ->
  0 < height canvasSize ->
  List.length (plotPoints dataArray canvasSize) = List.length dataArray
  /\ forall p : Q * Q,
     In p (plotPoints dataArray canvasSize) ->
     0 <= fst p < width canvasSize /\ 0 <= snd p < height canvasSize.
Proof.
  intros Hw Hh. unfold plotPoints. split; [ apply plotFrom_length | ].
  intros p Hin.
  assert (Hne : dataArray <> []) by (destruct dataArray; [ contradiction | discriminate ]).
  pose proof (MicMore.lengthQ_pos dataArray Hne) as Hn.
  set (n := lengthQ dataArray) in *.
  assert (Hslice : 0 <= width canvasSize / n).
  { apply Qle_shift_div_l; [ exact Hn | lra ]. }
  destruct (plotFrom_range _ _ dataArray 0 Hslice Hh p Hin)
    as (Hlo & Hhi & Hy).
  fold n in Hhi.
  assert (Hfull : width canvasSize / n * (n - 1)
                  == width canvasSize - width canvasSize / n).
  { field. intro Hz. rewrite Hz in Hn. apply (Qlt_irrefl 0 Hn). }
  assert (Hpos : 0 < width canvasSize / n).
  { apply Qlt_shift_div_l; [ exact Hn | lra ]. }
  rewrite Hfull in Hhi. repeat split; try lra; apply Hy.
Qed.

Lemma plot_stays_inside_canvas_witness :
  0 < width (mkCanvasSize 800 160)
  /\ 0 < height (mkCanvasSize 800 160)
  /\ List.length (plotPoints [x00; x80; xff; x80] (mkCanvasSize 800 160))
     = List.length [x00; x80; xff; x80]
  /\ forall p : Q * Q,
     In p (plotPoints [x00; x80; xff; x80] (mkCanvasSize 800 160)) ->
     0 <= fst p < width (mkCanvasSize 800 160)
     /\ 0 <= snd p < height (mkCanvasSize 800 160).
Proof.
  split; [ reflexivity | split; [ reflexivity | ] ].
  apply (plot_stays_inside_canvas [x00; x80; xff; x80] (mkCanvasSize 800 160));
    reflexivity.
Defined.

(** *** Canvas sizing *)

(** X13.  The canvas width as a function of the container.  For a container
    at most 336 px wide the canvas is 320 px; from 337 to 842 px it is 95% of
    the container; from 843 px on it is 800 px; and a wider container never
    gives a narrower canvas. *)
Theorem canvas_width_piecewise
    (w w' : Z) (propWidth propHeight : Q) (canvasSize : CanvasSize) :
  let size := fun cw => updateCanvasSize propWidth propHeight (Some cw) canvasSize in
  ((w <= 336)%Z -> width (size w) == 320)
  /\ ((337 <= w <= 842)%Z -> width (size w) == inject_Z w * 0.95)
  /\ ((843 <= w)%Z -> width (size w) == 800)
  /\ ((w <= w')%Z -> width (size w) <= width (size w')).
Proof.
  intro size. unfold size, updateCanvasSize. cbn [width].
  split; [ | split; [ | split ] ].
  - intro H. rewrite Zle_Qle in H.
    change (inject_Z 336) with 336 in H.
    rewrite Q.max_r by lra. apply Q.min_l. lra.
  - intros [Hlo Hhi]. rewrite Zle_Qle in Hlo, Hhi.
    change (inject_Z 337) with 337 in Hlo.
    change (inject_Z 842) with 842 in Hhi.
    rewrite Q.max_l by lra. apply Q.min_l. lra.
  - intro H. rewrite Zle_Qle in H.
    change (inject_Z 843) with 843 in H.
    rewrite Q.max_l by lra. apply Q.min_r. lra.
  - intro H. rewrite Zle_Qle in H.
    apply Q.min_le_compat_r, Q.max_le_compat_r. lra.
Qed.

Lemma canvas_width_piecewise_witness :
  (100 <= 336)%Z
  /\ width (updateCanvasSize 800 160 (Some 100%Z) (mkCanvasSize 800 160))
     == 320
  /\ (337 <= 600 <= 842)%Z
  /\ width (updateCanvasSize 800 160 (Some 600%Z) (mkCanvasSize 800 160))
     == 600 * 0.95
  /\ (843 <= 1000)%Z
  /\ width (updateCanvasSize 800 160 (Some 1000%Z) (mkCanvasSize 800 160))
     == 800
  /\ (100 <= 600)%Z
  /\ width (updateCanvasSize 800 160 (Some 100%Z) (mkCanvasSize 800 160))
     <= width (updateCanvasSize 800 160 (Some 600%Z) (mkCanvasSize 800 160)).
Proof.
  pose proof (canvas_width_piecewise 100 600 800 160 (mkCanvasSize 800 160))
    as (Hsmall & _ & _ & Hmono).
  pose proof (canvas_width_piecewise 600 600 800 160 (mkCanvasSize 800 160))
    as (_ & Hmid & _ & _).
  pose proof (canvas_width_piecewise 1000 1000 800 160 (mkCanvasSize 800 160))
    as (_ & _ & Hlarge & _).
  cbv zeta in *.
  split; [ lia | split; [ apply Hsmall; lia | ] ].
  split; [ lia | split; [ apply Hmid; lia | ] ].
  split; [ lia | split; [ apply Hlarge; lia | ] ].
  split; [ lia | apply Hmono; lia ].
Defined.

(** X14.  The cap on the height never cuts in for flat canvases.  If the
    props' aspect ratio [height / width] is at most 1/4 (as with the
    component's default 800 x 200 and the recorder's 800 x 160), the canvas
    height is exactly the canvas width times that ratio, so the canvas keeps
    the props' proportions at every container width. *)
Theorem canvas_keeps_aspect_ratio
    (w : Z) (propWidth propHeight : Q) (canvasSize : CanvasSize) :
  0 < propWidth ->
  propHeight / propWidth <= 1 # 4 ->
  let c := updateCanvasSize propWidth propHeight (Some w) canvasSize in
  height c == width c * (propHeight / propWidth).
Proof.
  intros Hpos Hflat c. unfold c, updateCanvasSize. cbn [width height].
  set (finalWidth := Qmin (Qmax (inject_Z w * 0.95) 320) 800).
  assert (Hrange : 320 <= finalWidth <= 800).
  { unfold finalWidth. split; [ | apply Q.le_min_r ].
    apply Q.min_glb; [ | lra ].
    apply Qle_trans with (y := 320); [ lra | apply Q.le_max_r ]. }
  apply Q.min_l. set (r := propHeight / propWidth) in *. nra.
Qed.

Lemma canvas_keeps_aspect_ratio_witness :
  0 < 800
  /\ 160 / 800 <= 1 # 4
  /\ (let c := updateCanvasSize 800 160 (Some 500%Z) (mkCanvasSize 800 160) in
      height c == width c * (160 / 800)).
Proof.
  split; [ reflexivity | split; [ vm_compute; discriminate | ] ].
  apply (canvas_keeps_aspect_ratio 500 800 160 (mkCanvasSize 800 160)).
  - reflexivity.
  - vm_compute. discriminate.
Defined.

End WaveformMore.

(** ** More on the recorder shell *)

Module RecorderMore.

Import Recorder.
Import Ascii.

(** *** The time badge *)

Lemma length_append (a b : string) :
  String.length (String.append a b) = (String.length a + String.length b)%nat.
Proof.
  induction a as [ | c a IH ]; cbn; [ reflexivity | f_equal; exact IH ].
Qed.

Lemma append_inj (a : string) : forall a' b b' : string,
  String.length a = String.length a' ->
  String.append a b = String.append a' b' ->
  a = a' /\ b = b'.
Proof.
  induction a as [ | c a IH ]; intros [ | c' a' ] b b' Hlen Heq;
    try discriminate Hlen.
  - split; [ reflexivity | exact Heq ].
  - cbn in Hlen, Heq. injection Hlen as Hlen. injection Heq as Hc Heq.
    destruct (IH a' b b' Hlen Heq) as [-> ->]. subst c'.
    split; reflexivity.
Qed.

Lemma zeros_length (n : nat) : String.length (zeros n) = n.
Proof.
  induction n as [ | n IH ]; cbn; [ reflexivity | f_equal; exact IH ].
Qed.

Lemma padStart_length (s : string) :
  String.length (padStart 2 s) = Nat.max 2 (String.length s).
Proof.
  unfold padStart. rewrite length_append, zeros_length. lia.
Qed.

Lemma readNat_zeros (k : nat) (n : nat) :
  readNat (String.append (zeros k) (toString n)) = Some n.
Proof.
  unfold readNat, toString. induction k as [ | k IH ].
  - cbn [zeros String.append]. rewrite DecimalString.NilEmpty.usu.
    cbn [option_map]. f_equal. apply DecimalNat.Unsigned.of_to.
  - cbn [zeros String.append DecimalString.NilEmpty.uint_of_string].
    destruct (DecimalString.NilEmpty.uint_of_string
                (String.append (zeros k)
                   (DecimalString.NilEmpty.string_of_uint (Nat.to_uint n))))
      as [ d | ]; [ | discriminate IH ].
    cbn in IH |- *. exact IH.
Qed.

Lemma readNat_padStart (n : nat) : readNat (padStart 2 (toString n)) = Some n.
Proof.
  unfold padStart. apply readNat_zeros.
Qed.

(** Numbers below 100 print with one or two digits. *)
Lemma toString_short (n : nat) :
  (n < 100)%nat -> (String.length (toString n) <= 2)%nat.
Proof.
  intro Hn.
  assert (Hall : forallb (fun k => String.length (toString k) <=? 2)
                   (seq 0 100) = true) by (vm_compute; reflexivity).
  rewrite forallb_forall in Hall.
  apply Nat.leb_le, Hall, in_seq. lia.
Qed.

Lemma padStart_two (n : nat) :
  (n < 100)%nat -> String.length (padStart 2 (toString n)) = 2%nat.
Proof.
  intro Hn. rewrite padStart_length.
  pose proof (toString_short n Hn). lia.
Qed.

(** X15.  The time badge.  Below 100 minutes the badge is five characters
    long with the colon in the middle: two digits of minutes, two digits of
    seconds. *)
Theorem formatTime_shape (seconds : nat) :
  (seconds < 100 * 60)%nat ->
  String.length (formatTime seconds) = 5%nat
  /\ String.get 2 (formatTime seconds) = Some ":"%char
  /\ readNat (String.substring 0 2 (formatTime seconds))
     = Some (seconds / 60)%nat
  /\ readNat (String.substring 3 2 (formatTime seconds))
     = Some (seconds mod 60)%nat.
Proof.
  intro Hlt. unfold formatTime.
  assert (Hm : (seconds / 60 < 100)%nat).
  { apply Nat.Div0.div_lt_upper_bound. lia. }
  assert (Hs : (seconds mod 60 < 100)%nat).
  { pose proof (Nat.mod_upper_bound seconds 60). lia. }
  pose proof (padStart_two _ Hm) as Hlm.
  pose proof (padStart_two _ Hs) as Hls.
  pose proof (readNat_padStart (seconds / 60)) as Hrm.
  pose proof (readNat_padStart (seconds mod 60)) as Hrs.
  destruct (padStart 2 (toString (seconds / 60)))
    as [ | m1 [ | m2 [ | ? ? ] ] ]; try discriminate Hlm.
  destruct (padStart 2 (toString (seconds mod 60)))
    as [ | s1 [ | s2 [ | ? ? ] ] ]; try discriminate Hls.
  cbn [String.append String.length String.get String.substring].
  repeat split; assumption.
Qed.

Lemma formatTime_shape_witness :
  (75 < 100 * 60)%nat
  /\ formatTime 75 = "01:15"%string
  /\ String.length (formatTime 75) = 5%nat
  /\ String.get 2 (formatTime 75) = Some ":"%char
  /\ readNat (String.substring 0 2 (formatTime 75)) = Some (75 / 60)%nat
  /\ readNat (String.substring 3 2 (formatTime 75)) = Some (75 mod 60)%nat.
Proof.
  split; [ lia | split; [ reflexivity | ] ].
  apply (formatTime_shape 75). lia.
Defined.

(** X16.  The badge tells the time: two different recording times never
    print as the same badge. *)
Theorem formatTime_injective (a b : nat) :
  formatTime a = formatTime b -> a = b.
Proof.
  unfold formatTime. intro Heq.
  assert (Hsa : (a mod 60 < 100)%nat)
    by (pose proof (Nat.mod_upper_bound a 60); lia).
  assert (Hsb : (b mod 60 < 100)%nat)
    by (pose proof (Nat.mod_upper_bound b 60); lia).
  pose proof (padStart_two _ Hsa) as Hla.
  pose proof (padStart_two _ Hsb) as Hlb.
  assert (Hlen : String.length (padStart 2 (toString (a / 60)))
                 = String.length (padStart 2 (toString (b / 60)))).
  { apply (f_equal String.length) in Heq.
    rewrite !length_append in Heq. cbn [String.length] in Heq.
    rewrite Hla, Hlb in Heq. lia. }
  destruct (append_inj _ _ _ _ Hlen Heq) as [Hmins Hsecs].
  assert (Htail : forall (c : ascii) (x y : string),
            String c x = String c y -> x = y)
    by (intros c x y Hxy; congruence).
  apply Htail in Hsecs.
  assert (Hsome : forall x y : nat, Some x = Some y -> x = y)
    by (intros x y Hxy; congruence).
  apply (f_equal readNat) in Hmins, Hsecs.
  rewrite !readNat_padStart in Hmins, Hsecs.
  apply Hsome in Hmins, Hsecs.
  pose proof (Nat.div_mod_eq a 60). pose proof (Nat.div_mod_eq b 60). lia.
Qed.

Lemma formatTime_injective_witness :
  formatTime 75 = formatTime (60 + 15) /\ 75%nat = (60 + 15)%nat.
Proof.
  split; [ reflexivity | ].
  apply (formatTime_injective 75 (60 + 15)). reflexivity.
Defined.

(** *** The recorder keeps one session *)

Lemma openSession_idle (m : Mic.Hook) :
  micIdle m ->
  let m' := Mic.openSession m in
  Mic.isListening m' = true
  /\ Mic.isSome (Mic.analyserRef m') = true
  /\ Mic.pendingFrames (Mic.platform m') = []
  /\ exists stream ctx,
      Mic.mediaStreamRef m' = Some stream
      /\ Mic.audioContextRef m' = Some ctx
      /\ Mic.liveStreams (Mic.platform m') = [stream]
      /\ Mic.openContexts (Mic.platform m') = [ctx].
Proof.
  intros (_ & _ & _ & _ & _ & Hls & Hoc & Hpf).
  destruct m as [ li sp hp al er ms ac an af st vh ls [ sts cts frs nh ] ].
  cbn in Hls, Hoc, Hpf. subst sts cts frs.
  cbv. repeat split. exists nh, (S nh). repeat split.
Qed.

Lemma setError_idle (v : option string) (m : Mic.Hook) :
  micIdle m -> micIdle (Mic.setError v m).
Proof.
  intro H. exact H.
Qed.

Lemma startListening_from_idle (c : bool) (r : Mic.MediaOutcome) (m : Mic.Hook) :
  micIdle m ->
  match r with
  | Mic.Denied => micIdle (Mic.startListening c r m)
  | Mic.Granted _ _ => micLive (Mic.startListening c r m)
  end.
Proof.
  intro Hidle. destruct r as [ | now d ].
  - exact Hidle.
  - unfold Mic.startListening.
    pose proof (openSession_idle (Mic.setError None m)
                  (setError_idle None m Hidle)) as Hopen.
    cbv zeta in Hopen.
    set (m1 := Mic.openSession (Mic.setError None m)) in *.
    destruct Hopen as (Hli & Han & Hpf & stream & ctx & Hms & Hac & Hls & Hoc).
    destruct (MicMore.analyzeAudio_untouched c now d m1)
      as (Hli' & _ & _ & Hms' & Hac' & Hls' & Hoc').
    destruct (MicMore.analyzeAudio_frames c now d m1 Han) as (Haf & Hpf').
    unfold micLive.
    rewrite Hli', Hms', Hac', Hls', Hoc', Hpf', Haf,
      MicFacts.analyzeAudio_analyser, Hpf.
    split; [ exact Hli | split; [ exact Han | ] ].
    exists stream, ctx, (Mic.nextHandle (Mic.platform m1)).
    repeat split; assumption.
Qed.

Lemma stopListening_to_idle (m : Mic.Hook) :
  micIdle m \/ micLive m -> micIdle (Mic.stopListening m).
Proof.
  intros [ (_ & Hms & Hac & _ & Hti & Hls & Hoc & Hpf)
         | (_ & _ & stream & ctx & frame
            & Hms & Hac & Haf & Hls & Hoc & Hpf) ];
    destruct m as [ li sp hp al er ms ac an af st vh ls [ sts cts frs nh ] ];
    cbn in *; subst.
  - unfold Mic.stopListening, Mic.clearSilenceTimeout.
    destruct af; cbv; repeat split.
  - unfold Mic.stopListening, Mic.clearSilenceTimeout.
    destruct st; cbv -[Mic.removeHandle];
      rewrite !MicMore.removeHandle_single; repeat split.
Qed.

Lemma callback_on_idle (e : Mic.Event) (a : App) :
  micIdle (mic a) -> possible (Callback e) a = false.
Proof.
  intros (_ & _ & _ & _ & Hti & _ & _ & Hpf).
  destruct e as [ id c now d | now ]; cbn.
  - rewrite Hpf. reflexivity.
  - rewrite Hti. reflexivity.
Qed.

Lemma callback_on_live (e : Mic.Event) (m : Mic.Hook) :
  micLive m ->
  match e with
  | Mic.Frame id _ _ _ =>
    existsb (Nat.eqb id) (Mic.pendingFrames (Mic.platform m)) = true
  | Mic.SilenceTimer _ => True
  end ->
  micLive (Mic.step e m).
Proof.
  intros (Hli & Han & stream & ctx & frame
          & Hms & Hac & Haf & Hls & Hoc & Hpf) Hposs.
  destruct e as [ id c now d | now ].
  - rewrite Hpf in Hposs. cbn in Hposs. rewrite orb_false_r in Hposs.
    apply Nat.eqb_eq in Hposs. subst id.
    cbn [Mic.step].
    set (m1 := Mic.setPlatform
                 (Mic.cancelAnimationFrame frame (Mic.platform m)) m).
    assert (H1 : Mic.isListening m1 = true
                 /\ Mic.isSome (Mic.analyserRef m1) = true
                 /\ Mic.mediaStreamRef m1 = Some stream
                 /\ Mic.audioContextRef m1 = Some ctx
                 /\ Mic.liveStreams (Mic.platform m1) = [stream]
                 /\ Mic.openContexts (Mic.platform m1) = [ctx]
                 /\ Mic.pendingFrames (Mic.platform m1) = []).
    { unfold m1. cbn. rewrite Hpf, MicMore.removeHandle_single.
      repeat split; assumption. }
    destruct H1 as (Hli1 & Han1 & Hms1 & Hac1 & Hls1 & Hoc1 & Hpf1).
    destruct (MicMore.analyzeAudio_untouched c now d m1)
      as (Hli' & _ & _ & Hms' & Hac' & Hls' & Hoc').
    destruct (MicMore.analyzeAudio_frames c now d m1 Han1) as (Haf' & Hpf').
    unfold micLive.
    rewrite Hli', Hms', Hac', Hls', Hoc', Hpf', Haf',
      MicFacts.analyzeAudio_analyser, Hpf1.
    split; [ exact Hli1 | split; [ exact Han1 | ] ].
    exists stream, ctx, (Mic.nextHandle (Mic.platform m1)).
    repeat split; assumption.
  - cbn [Mic.step]. unfold Mic.silenceTimeoutFired, micLive.
    destruct (_ <=? _)%Z; cbn;
      (split; [ exact Hli | split; [ exact Han | ] ];
       exists stream, ctx, frame; repeat split; assumption).
Qed.

Lemma act_keeps_invariant (x : Action) (a : App) :
  appInvariant a -> possible x a = true -> appInvariant (act x a).
Proof.
  intros [Hmic Hflags] Hposs.
  destruct a as [ t rec pau m ]. cbn [mic isRecording isPaused] in *.
  destruct x as [ r | | | e ].
  - cbn [act]. unfold handleRecordingToggle.
    cbn [mic isRecording isPaused recordingTime].
    destruct rec, pau; cbn [negb andb].
    + (* paused: resume *)
      destruct Hmic as [ Hidle | (_ & _ & Hp) ]; [ | discriminate ].
      pose proof (startListening_from_idle (Mic.isSpeaking m) r m Hidle)
        as Hstart.
      split; [ | intro; reflexivity ].
      destruct r;
        [ left; exact Hstart
        | right; split; [ exact Hstart | split; reflexivity ] ].
    + (* recording: pause *)
      split; [ left; apply stopListening_to_idle | intro; reflexivity ].
      destruct Hmic as [ Hidle | (Hlive & _) ]; [ left | right ]; assumption.
    + (* impossible: paused without recording *)
      specialize (Hflags eq_refl). discriminate.
    + (* idle: start *)
      destruct Hmic as [ Hidle | (_ & Hr & _) ]; [ | discriminate ].
      pose proof (startListening_from_idle (Mic.isSpeaking m) r m Hidle)
        as Hstart.
      split; [ | intro; reflexivity ].
      destruct r;
        [ left; exact Hstart
        | right; split; [ exact Hstart | split; reflexivity ] ].
  - cbn [act]. unfold handleStopRecording. cbn [mic isRecording isPaused].
    split; [ left; apply stopListening_to_idle | discriminate ].
    destruct Hmic as [ Hidle | (Hlive & _) ]; [ left | right ]; assumption.
  - cbn [act]. unfold secondElapsed.
    destruct (timerRunning _); split; assumption.
  - cbn [act mic isRecording isPaused]. split; [ | exact Hflags ].
    destruct Hmic as [ Hidle | (Hlive & Hr & Hp) ].
    + rewrite (callback_on_idle e (mkApp t rec pau m) Hidle) in Hposs.
      discriminate.
    + right. split; [ | split; assumption ].
      apply callback_on_live; [ exact Hlive | ].
      destruct e as [ id c now d | now ]; [ exact Hposs | exact I ].
Qed.

Lemma initial_invariant : appInvariant initial.
Proof.
  split; [ left; cbv; repeat split | discriminate ].
Qed.

Lemma perform_keeps_invariant (xs : list Action) : forall a a' : App,
  appInvariant a -> perform a xs = Some a' -> appInvariant a'.
Proof.
  induction xs as [ | x xs IH ]; intros a a' Hinv Hrun.
  - cbn in Hrun. injection Hrun as <-. exact Hinv.
  - cbn [perform] in Hrun. destruct (possible x a) eqn:Hposs;
      [ | discriminate ].
    apply (IH (act x a)); [ | exact Hrun ].
    apply act_keeps_invariant; assumption.
Qed.



Lemma sampleSession_runs : perform initial sampleSession = Some sampleEnd.
Proof.
  vm_compute. reflexivity.
Qed.


(** X18.  The shell's flags and the hook agree, as long as each handler runs
    to completion before the next event (no press or callback arrives while a
    toggle press is still waiting for [getUserMedia]).  In every state the
    recorder reaches from its initial state under that condition, it is never
    paused without recording, the hook listens only while the recorder is
    recording and not paused, and the timer runs exactly when the hook
    listens. *)
Theorem recorder_flags_agree (xs : list Action) (a : App) :
  perform initial xs = Some a ->
  (isPaused a = true -> isRecording a = true)
  /\ (Mic.isListening (mic a) = true ->
      isRecording a = true /\ isPaused a = false)
  /\ timerRunning a = Mic.isListening (mic a).
Proof.
  intro Hrun.
  destruct (perform_keeps_invariant xs initial a initial_invariant Hrun)
    as [ [ (Hli & _) | ((Hli & _) & Hr & Hp) ] Hflags ].
  - split; [ exact Hflags | split ].
    + rewrite Hli. discriminate.
    + unfold timerRunning. rewrite Hli.
      destruct (isRecording a); reflexivity.
  - split; [ exact Hflags | split ].
    + intros _. split; assumption.
    + unfold timerRunning. rewrite Hli, Hr, Hp. reflexivity.
Qed.

Lemma recorder_flags_agree_witness :
  perform initial sampleSession = Some sampleEnd
  /\ (isPaused sampleEnd = true -> isRecording sampleEnd = true)
  /\ (Mic.isListening (mic sampleEnd) = true ->
      isRecording sampleEnd = true /\ isPaused sampleEnd = false)
  /\ timerRunning sampleEnd = Mic.isListening (mic sampleEnd).
Proof.
  split; [ exact sampleSession_runs | ].
  apply (recorder_flags_agree sampleSession sampleEnd).
  exact sampleSession_runs.
Defined.

(** X19.  Nothing is left behind, as long as each handler runs to completion
    before the next event (no press or callback arrives while a toggle press
    is still waiting for [getUserMedia]).  From any state the recorder reaches
    from its initial state under that condition, a press of stop, or a press
    of the toggle while recording (a pause), leaves no live stream, no open
    audio context, no pending animation frame and no pending timeout, so no
    callback of the hook can run afterwards. *)
Theorem stop_and_pause_leave_nothing
    (xs : list Action) (a : App) (r : Mic.MediaOutcome) :
  perform initial xs = Some a ->
  let quiet := fun a' : App =>
    micIdle (mic a') /\ forall e, possible (Callback e) a' = false in
  quiet (handleStopRecording a)
  /\ (isRecording a = true -> isPaused a = false ->
      quiet (handleRecordingToggle r a)).
Proof.
  intros Hrun quiet.
  pose proof (perform_keeps_invariant xs initial a initial_invariant Hrun)
    as [Hmic _].
  assert (Hstop : micIdle (Mic.stopListening (mic a))).
  { apply stopListening_to_idle.
    destruct Hmic as [ Hidle | (Hlive & _) ]; [ left | right ]; assumption. }
  unfold quiet. split.
  - split; [ exact Hstop | ].
    intro e. apply callback_on_idle. exact Hstop.
  - intros Hr Hp. unfold handleRecordingToggle. rewrite Hr, Hp.
    cbn [negb andb]. split; [ exact Hstop | ].
    intro e. apply callback_on_idle. exact Hstop.
Qed.

Lemma stop_and_pause_leave_nothing_witness :
  perform initial sampleSession = Some sampleEnd
  /\ isRecording sampleEnd = true
  /\ isPaused sampleEnd = false
  /\ micIdle (mic (handleRecordingToggle Mic.Denied sampleEnd))
  /\ forall e,
     possible (Callback e) (handleRecordingToggle Mic.Denied sampleEnd)
     = false.
Proof.
  split; [ exact sampleSession_runs | ].
  split; [ reflexivity | split; [ reflexivity | ] ].
  apply (proj2 (stop_and_pause_leave_nothing sampleSession sampleEnd
                  Mic.Denied sampleSession_runs));
    reflexivity.
Defined.

(** *** Pausing, resuming, and a refused microphone *)

Lemma secondsElapsed_running (n : nat) : forall a : App,
  timerRunning a = true ->
  secondsElapsed n a
  = mkApp (recordingTime a + n) (isRecording a) (isPaused a) (mic a).
Proof.
  induction n as [ | n IH ]; intros a Hon.
  - destruct a as [ t rec pau m ]. cbn. rewrite Nat.add_0_r. reflexivity.
  - cbn [secondsElapsed]. unfold secondElapsed at 1. rewrite Hon.
    rewrite IH by exact Hon.
    cbn [recordingTime isRecording isPaused mic]. f_equal. lia.
Qed.

Lemma granted_start_listens (c : bool) (now : Z) (d : Snapshot)
    (m : Mic.Hook) :
  Mic.isListening (Mic.startListening c (Mic.Granted now d) m) = true.
Proof.
  unfold Mic.startListening.
  destruct (MicMore.analyzeAudio_untouched c now d
              (Mic.openSession (Mic.setError None m))) as (-> & _).
  apply (MicMore.openSession_fields (Mic.setError None m)).
Qed.

(** X20.  The timer adds up across a pause.  From a running recording, [n]
    seconds, a pause, any wait, a resume with the microphone granted and [k]
    more seconds leave the recording time at its starting value plus
    [n + k]: the wait in pause is not counted and the resume does not reset
    the count. *)
Theorem time_adds_up_across_pause
    (a : App) (n wait k : nat) (r : Mic.MediaOutcome) (now : Z)
    (d : Snapshot) :
  timerRunning a = true ->
  let paused := handleRecordingToggle r (secondsElapsed n a) in
  let resumed :=
    handleRecordingToggle (Mic.Granted now d) (secondsElapsed wait paused) in
  recordingTime paused = (recordingTime a + n)%nat
  /\ recordingTime (secondsElapsed wait paused) = (recordingTime a + n)%nat
  /\ timerRunning resumed = true
  /\ recordingTime (secondsElapsed k resumed) = (recordingTime a + n + k)%nat.
Proof.
  intros Hon paused resumed.
  assert (Hflags : isRecording a = true /\ isPaused a = false).
  { unfold timerRunning in Hon.
    destruct (isRecording a), (isPaused a), (Mic.isListening (mic a));
      try discriminate Hon. split; reflexivity. }
  destruct Hflags as [Hr Hp].
  assert (Hpaused : paused = mkApp (recordingTime a + n) true true
                               (Mic.stopListening (mic a))).
  { unfold paused. rewrite (secondsElapsed_running n a Hon).
    unfold handleRecordingToggle.
    cbn [recordingTime isRecording isPaused mic]. rewrite Hr, Hp.
    reflexivity. }
  assert (Hoff : timerRunning paused = false).
  { rewrite Hpaused. unfold timerRunning.
    cbn [isRecording isPaused mic negb]. apply andb_false_r. }
  assert (Hwait : secondsElapsed wait paused = paused)
    by (apply RecorderFacts.secondsElapsed_stopped; exact Hoff).
  assert (Hresumed : resumed = mkApp (recordingTime a + n) true false
      (Mic.startListening (Mic.isSpeaking (Mic.stopListening (mic a)))
         (Mic.Granted now d) (Mic.stopListening (mic a)))).
  { unfold resumed. rewrite Hwait, Hpaused. reflexivity. }
  assert (Hon' : timerRunning resumed = true).
  { rewrite Hresumed. unfold timerRunning.
    cbn [isRecording isPaused mic negb]. rewrite granted_start_listens.
    reflexivity. }
  rewrite Hwait. split; [ rewrite Hpaused; reflexivity | ].
  split; [ rewrite Hpaused; reflexivity | split; [ exact Hon' | ] ].
  rewrite (secondsElapsed_running k resumed Hon'), Hresumed. reflexivity.
Qed.

Lemma time_adds_up_across_pause_witness :
  let a := handleRecordingToggle (Mic.Granted 0 Mic.loudBuffer) initial in
  timerRunning a = true
  /\ recordingTime
       (secondsElapsed 4
          (handleRecordingToggle (Mic.Granted 9000 Mic.silentBuffer)
             (secondsElapsed 7
                (handleRecordingToggle Mic.Denied (secondsElapsed 3 a)))))
     = (recordingTime a + 3 + 4)%nat.
Proof.
  intro a. split; [ reflexivity | ].
  apply (time_adds_up_across_pause a 3 7 4 Mic.Denied 9000 Mic.silentBuffer).
  reflexivity.
Defined.

(** X21.  A refused microphone.  When the first press of the toggle on an
    idle recorder is answered by a denial, the recorder still shows the
    recording state, with the hook's error message set, but the timer does
    not run and the time stays 0; the next press of the toggle does not ask
    for the microphone again, whatever the browser would answer: it takes the
    pause branch and only calls [stopListening]. *)
Theorem refused_microphone (a : App) (r : Mic.MediaOutcome) (n : nat) :
  isRecording a = false ->
  isPaused a = false ->
  Mic.isListening (mic a) = false ->
  let refused := handleRecordingToggle Mic.Denied a in
  isRecording refused = true
  /\ isPaused refused = false
  /\ Mic.error (mic refused) = Some Mic.deniedMessage
  /\ Mic.hasPermission (mic refused) = Some false
  /\ timerRunning refused = false
  /\ recordingTime (secondsElapsed n refused) = 0%nat
  /\ handleRecordingToggle r refused
     = mkApp 0 true true (Mic.stopListening (mic refused)).
Proof.
  intros Hr Hp Hli refused.
  assert (Hrefused : refused
            = mkApp 0 true false
                (Mic.startListening (Mic.isSpeaking (mic a)) Mic.Denied
                   (mic a))).
  { unfold refused, handleRecordingToggle. rewrite Hr, Hp. reflexivity. }
  assert (Hoff : timerRunning refused = false).
  { rewrite Hrefused. unfold timerRunning.
    cbn [isRecording isPaused mic Mic.startListening].
    cbn [Mic.isListening Mic.setHasPermission Mic.setError].
    rewrite Hli. reflexivity. }
  rewrite (RecorderFacts.secondsElapsed_stopped n refused Hoff).
  rewrite Hrefused in *.
  repeat split; try reflexivity. exact Hoff.
Qed.

Lemma refused_microphone_witness :
  isRecording initial = false
  /\ isPaused initial = false
  /\ Mic.isListening (mic initial) = false
  /\ (let refused := handleRecordingToggle Mic.Denied initial in
      isRecording refused = true
      /\ isPaused refused = false
      /\ Mic.error (mic refused) = Some Mic.deniedMessage
      /\ Mic.hasPermission (mic refused) = Some false
      /\ timerRunning refused = false
      /\ recordingTime (secondsElapsed 5 refused) = 0%nat
      /\ handleRecordingToggle (Mic.Granted 0 Mic.loudBuffer) refused
         = mkApp 0 true true (Mic.stopListening (mic refused))).
Proof.
  split; [ reflexivity | split; [ reflexivity | split; [ reflexivity | ] ] ].
  apply (refused_microphone initial (Mic.Granted 0 Mic.loudBuffer) 5);
    reflexivity.
Defined.

End RecorderMore.
